(** * The OKX auto-swap bot (src/bot.js): control loop and decision procedure

    A shallow embedding of the class [OKXAutoSwapBot].  Every async method of
    the class is a program in a small free monad whose nodes are the effects
    the JavaScript code performs: reading and writing the fields of [this],
    printing to the console, throwing, and suspending on a promise of the
    outside world ([await]).  An interpreter runs such a program against an
    environment that answers each awaited call and may deliver a call of
    [stop()] while the program is suspended.

    The ledger client and the HTTP client are the environment: what they
    answer is arbitrary, and how long they take is not modelled.  The loading
    of the wallet (lines 22-46) and the wiring of the process (lines 261-293)
    are outside the embedding. *)

From Stdlib Require Import ZArith List String Ascii Bool Lia.
From Stdlib Require Import DecimalString DecimalPos.
Import ListNotations.
Open Scope string_scope.
Open Scope list_scope.
Open Scope Z_scope.

(** ** JavaScript values used by the bot *)

Module JS.

(** [a || d] on an optional number: [undefined] and [0] are falsy. *)
Definition or_num (a : option Z) (d : Z) : Z :=
  match a with
  | Some v => if v =? 0 then d else v
  | None => d
  end.

(** [a || d] on an optional string: [undefined] and the empty string are
    falsy. *)
Definition or_str (a : option string) (d : string) : string :=
  match a with
  | Some EmptyString => d
  | Some v => v
  | None => d
  end.

(** [n.toString()] of an integer: all its digits.  This is the built-in on
    safe integers (and up to 1e21 on the integers that are doubles), where
    no exponent is written. *)
Definition toString (n : Z) : string :=
  NilZero.string_of_int (Z.to_int n).

(** White space that [parseInt] skips (the ASCII part of it: a text with
    U+00A0, U+FEFF or other Unicode white space is outside the model). *)
Definition is_space (c : ascii) : bool :=
  let n := nat_of_ascii c in
  ((9 <=? n) && (n <=? 13))%nat || (n =? 32)%nat.

Fixpoint skip_spaces (s : string) : string :=
  match s with
  | String c r => if is_space c then skip_spaces r else s
  | EmptyString => s
  end.

(** The value of a digit in the given radix, if it is one. *)
Definition digit_value (radix : Z) (c : ascii) : option Z :=
  let n := Z.of_nat (nat_of_ascii c) in
  let v := if (48 <=? n) && (n <=? 57) then Some (n - 48)
           else if (97 <=? n) && (n <=? 122) then Some (n - 87)
           else if (65 <=? n) && (n <=? 90) then Some (n - 55)
           else None in
  match v with
  | Some d => if d <? radix then Some d else None
  | None => None
  end.

(** Reads the longest prefix of digits; [acc] is [None] until a digit has
    been read. *)
Fixpoint read_digits (radix : Z) (s : string) (acc : option Z) : option Z :=
  match s with
  | String c r =>
      match digit_value radix c with
      | Some d =>
          read_digits radix r
            (Some (match acc with Some a => a * radix + d | None => d end))
      | None => acc
      end
  | EmptyString => acc
  end.

(** [parseInt(s)] without a radix: leading white space, an optional sign, an
    optional [0x] prefix, then the longest run of digits.  [None] is [NaN].
    The result is the exact integer: it is what the built-in returns when
    that integer is a safe one (below 2^53, where a double is exact) and the
    text is ASCII; beyond that the built-in rounds to a double. *)
Definition parseInt (s : string) : option Z :=
  let s1 := skip_spaces s in
  let '(neg, s2) :=
    match s1 with
    | String "-" r => (true, r)
    | String "+" r => (false, r)
    | _ => (false, s1)
    end in
  let '(radix, s3) :=
    match s2 with
    | String "0" (String "x" r) => (16, r)
    | String "0" (String "X" r) => (16, r)
    | _ => (10, s2)
    end in
  match read_digits radix s3 None with
  | Some v => Some (if neg then - v else v)
  | None => None
  end.

(** [a >= b] where [a] may be [NaN]: every comparison with [NaN] is false. *)
Definition geq (a : option Z) (b : Z) : bool :=
  match a with
  | Some v => b <=? v
  | None => false
  end.

End JS.

(** ** Data *)

(** The configuration object passed to the constructor.  Numbers are
    integers; the fields the code reads through [||] may be absent.
    [cfgMaxDailyTrades] is [config.maxDailyTrades], renamed because the object
    has a field [maxDailyTrades] of its own. *)
Record Config := {
  fromToken : string;
  toToken : string;
  amount : Z;
  minExpectedAmount : option Z;
  slippage : option string;
  checkInterval : Z;
  tradeCooldown : Z;
  cfgMaxDailyTrades : option Z
}.

(** [botConfig], lines 250-259. *)
Definition botConfig : Config := {|
  fromToken := "11111111111111111111111111111111";
  toToken := "pumpCmXqMfrsAkQ5r49WcJnRayYRqmXz6ae8H7H9Dfn";
  amount := 100000000;
  minExpectedAmount := Some 1000000;
  slippage := Some "2";
  checkInterval := 60000;
  tradeCooldown := 300000;
  cfgMaxDailyTrades := Some 20
|}.

(** What the program may receive or raise at a fallible step: a value, or an
    [Error] with its message. *)
Inductive result (A : Type) : Type :=
| Resolved (a : A)
| Rejected (msg : string).
Arguments Resolved {A} a.
Arguments Rejected {A} msg.

(** The key pair [this.wallet]: its public key, and what
    [Transaction.from(Buffer.from(tx, 'base64'))], [partialSign(this.wallet)]
    and [serialize()] of the ledger library make of a base64 payload (they may
    throw). *)
Record Wallet := {
  publicKey : string;
  signTransaction : string -> result string
}.

(** The fields of [this]. *)
Record Bot := {
  config : Config;
  wallet : Wallet;
  isRunning : bool;
  tradeCount : Z;
  maxDailyTrades : Z
}.

(** The constructor, lines 7-19 (its three banner lines are not kept). *)
Definition newBot (cfg : Config) (wl : Wallet) : Bot := {|
  config := cfg;
  wallet := wl;
  isRunning := false;
  tradeCount := 0;
  maxDailyTrades := JS.or_num (cfgMaxDailyTrades cfg) 50
|}.

Definition setRunning (v : bool) (b : Bot) : Bot := {|
  config := config b;
  wallet := wallet b;
  isRunning := v;
  tradeCount := tradeCount b;
  maxDailyTrades := maxDailyTrades b
|}.

(** [this.tradeCount++] *)
Definition incrTradeCount (b : Bot) : Bot := {|
  config := config b;
  wallet := wallet b;
  isRunning := isRunning b;
  tradeCount := tradeCount b + 1;
  maxDailyTrades := maxDailyTrades b
|}.

(** One element of the [data] array of a quote response: the fields the bot
    reads. *)
Record QuoteData := {
  fromTokenAddress : string;      (* fromToken.tokenContractAddress *)
  toTokenAddress : string;        (* toToken.tokenContractAddress *)
  fromTokenAmount : string;
  toTokenAmount : string
}.

(** The envelope [response.data] of the aggregator: [{code, msg, data}]. *)
Record Envelope (A : Type) := {
  code : string;
  msg : string;
  data : list A
}.
Arguments code {A} e.
Arguments msg {A} e.
Arguments data {A} e.

(** ** Effects *)

(** The promises of the outside world the bot awaits. *)
Inductive call : Type :=
| GetBalance (account : string)
    (* connection.getBalance(wallet.publicKey) *)
| GetQuote (fromT toT amt slip : string)
    (* axios.get(apiUrl + '/quote', {params}) *)
| PostSwap (fromT toT amt slip user : string)
    (* axios.post(apiUrl + '/swap', body) *)
| SendRawTransaction (raw : string)
    (* connection.sendRawTransaction(raw, opts) *)
| ConfirmTransaction (signature : string)
    (* connection.confirmTransaction(signature, 'confirmed') *)
| SetTimeout (ms : Z).
    (* new Promise(resolve => setTimeout(resolve, ms)) *)

(** What each promise settles to.  The timer promise is never rejected; the
    confirmation resolves to [confirmation.value.err], [None] being [null]. *)
Definition reply (c : call) : Type :=
  match c with
  | GetBalance _ => result Z
  | GetQuote _ _ _ _ => result (Envelope QuoteData)
  | PostSwap _ _ _ _ _ => result (Envelope string)
  | SendRawTransaction _ => result string
  | ConfirmTransaction _ => result (option string)
  | SetTimeout _ => unit
  end.

(** The lines the bot prints, one constructor per [console.log] or
    [console.error] of the source, with the data the line shows. *)
Inductive line : Type :=
| LogBalance (lamports : Z)            (* 53 *)
| ErrCheckingBalance (m : string)      (* 56 *)
| ErrGettingQuote (m : string)         (* 84 *)
| LogTransactionSent (sig : string)    (* 121 *)
| ErrExecutingSwap (m : string)        (* 132 *)
| LogLimitReached                      (* 142 *)
| LogInsufficientBalance               (* 151 *)
| LogCurrentQuote (pump : option Z)    (* 165 *)
| ErrShouldTrade (m : string)          (* 174 *)
| LogStartingSwap                      (* 182 *)
| LogSwapping (pump : option Z)        (* 190 *)
| LogSwapCompleted (sig : string)      (* 195 *)
| LogTotalTrades (n m : Z)             (* 196 *)
| ErrSwapFailed (m : string)           (* 200 *)
| LogStarting                          (* 207 *)
| LogChecking                          (* 212 *)
| LogCooldown (ms : Z)                 (* 220 *)
| LogNotMet                            (* 223 *)
| ErrMainLoop (m : string)             (* 230 *)
| LogRetrying                          (* 231 *)
| LogStopping.                         (* 239 *)

(** Programs: the effects of an async method in the order it performs them. *)
Inductive prog (A : Type) : Type :=
| Ret (a : A)
| Throw (m : string)
| Read (k : Bot -> prog A)
| Modify (f : Bot -> Bot) (k : prog A)
| Print (l : line) (k : prog A)
| Await (c : call) (k : reply c -> prog A).
Arguments Ret {A} a.
Arguments Throw {A} m.
Arguments Read {A} k.
Arguments Modify {A} f k.
Arguments Print {A} l k.
Arguments Await {A} c k.

Fixpoint bind {A B : Type} (p : prog A) (f : A -> prog B) : prog B :=
  match p with
  | Ret a => f a
  | Throw m => Throw m
  | Read k => Read (fun b => bind (k b) f)
  | Modify g k => Modify g (bind k f)
  | Print l k => Print l (bind k f)
  | Await c k => Await c (fun r => bind (k r) f)
  end.

(** [try { p } catch (error) { h error.message }] *)
Fixpoint tryCatch {A : Type} (p : prog A) (h : string -> prog A) : prog A :=
  match p with
  | Ret a => Ret a
  | Throw m => h m
  | Read k => Read (fun b => tryCatch (k b) h)
  | Modify g k => Modify g (tryCatch k h)
  | Print l k => Print l (tryCatch k h)
  | Await c k => Await c (fun r => tryCatch (k r) h)
  end.

Declare Scope prog_scope.
Delimit Scope prog_scope with prog.
Notation "x <- p ;; q" := (bind p (fun x => q))
  (at level 61, p at next level, right associativity) : prog_scope.
Notation "p ;; q" := (bind p (fun _ => q))
  (at level 61, right associativity) : prog_scope.
Open Scope prog_scope.

Definition this : prog Bot := Read (fun b => Ret b).
Definition modify (f : Bot -> Bot) : prog unit := Modify f (Ret tt).
Definition print (l : line) : prog unit := Print l (Ret tt).

(** [await] on a promise that may be rejected: a rejection is thrown at the
    point of the [await]. *)
Definition settle {A : Type} (r : result A) : prog A :=
  match r with
  | Resolved a => Ret a
  | Rejected m => Throw m
  end.

Definition await (c : call) : prog (reply c) := Await c (fun r => Ret r).

(** ** The methods of the class *)

(** [sleep(ms)], lines 244-246. *)
Definition sleep (ms : Z) : prog unit := await (SetTimeout ms).

(** [stop()], lines 238-241. *)
Definition stop : prog unit :=
  print LogStopping ;;
  modify (setRunning false).

(** [checkBalance()], lines 49-59. *)
Definition checkBalance : prog Z :=
  tryCatch
    (b <- this ;;
     r <- await (GetBalance (publicKey (wallet b))) ;;
     balance <- settle r ;;
     print (LogBalance balance) ;;
     Ret balance)
    (fun m =>
     print (ErrCheckingBalance m) ;;
     Ret 0).

(** The request of lines 64-76: [amount.toString()], and the slippage of the
    configuration or ['1']. *)
Definition quoteRequest (b : Bot) (fromT toT : string) (amt : Z) : call :=
  GetQuote fromT toT (JS.toString amt) (JS.or_str (slippage (config b)) "1").

(** [getSwapQuote(fromToken, toToken, amount)], lines 62-87.  The value
    returned is [response.data.data[0]], which is [undefined] ([None]) when
    the array is empty. *)
Definition getSwapQuote (fromT toT : string) (amt : Z)
  : prog (option QuoteData) :=
  tryCatch
    (b <- this ;;
     r <- await (quoteRequest b fromT toT amt) ;;
     response <- settle r ;;
     if String.eqb (code response) "0"
     then Ret (nth_error (data response) 0)
     else Throw ("API Error: " ++ msg response))
    (fun m =>
     print (ErrGettingQuote m) ;;
     Throw m).

(** Reading a property of a value that may be [undefined]. *)
Definition property {A : Type} (name : string) (o : option A) : prog A :=
  match o with
  | Some a => Ret a
  | None =>
      Throw ("Cannot read properties of undefined (reading '" ++ name ++ "')")
  end.

(** Whether [confirmation.value.err] is truthy: [null] ([None]) and the
    empty string are not. *)
Definition truthy (err : option string) : bool :=
  match err with
  | Some text => negb (String.eqb text "")
  | None => false
  end.

(** [executeSwap(quoteData)], lines 90-135.  Line 126 tests the error for
    truthiness. *)
Definition executeSwap (quoteData : option QuoteData) : prog string :=
  tryCatch
    (q <- property "fromToken" quoteData ;;
     b <- this ;;
     r <- await (PostSwap (fromTokenAddress q) (toTokenAddress q)
                   (fromTokenAmount q)
                   (JS.or_str (slippage (config b)) "1")
                   (publicKey (wallet b))) ;;
     swapResponse <- settle r ;;
     if negb (String.eqb (code swapResponse) "0")
     then Throw ("Swap API Error: " ++ msg swapResponse)
     else
       tx <- property "tx" (nth_error (data swapResponse) 0) ;;
       b <- this ;;
       raw <- settle (signTransaction (wallet b) tx) ;;
       r <- await (SendRawTransaction raw) ;;
       signature <- settle r ;;
       print (LogTransactionSent signature) ;;
       r <- await (ConfirmTransaction signature) ;;
       confirmation <- settle r ;;
       match confirmation with
       | Some err =>
           if String.eqb err ""
           then Ret signature
           else Throw ("Transaction failed: " ++ err)
       | None => Ret signature
       end)
    (fun m =>
     print (ErrExecutingSwap m) ;;
     Throw m).

(** [0.01 * 1000000000], the gas fee reserved on line 148. *)
Definition feeMargin : Z := 10000000.

(** [requiredBalance], line 148.  The sum is the exact one: it is the sum of
    the code, made on doubles, when it is a safe integer. *)
Definition requiredBalance (cfg : Config) : Z := amount cfg + feeMargin.

(** [minExpected], line 163. *)
Definition minExpected (cfg : Config) : Z :=
  JS.or_num (minExpectedAmount cfg) 0.

(** [shouldTrade()], lines 138-177. *)
Definition shouldTrade : prog bool :=
  tryCatch
    (b <- this ;;
     if maxDailyTrades b <=? tradeCount b
     then
       print LogLimitReached ;;
       Ret false
     else
       balance <- checkBalance ;;
       b <- this ;;
       if balance <? requiredBalance (config b)
       then
         print LogInsufficientBalance ;;
         Ret false
       else
         quote <- getSwapQuote (fromToken (config b)) (toToken (config b))
                    (amount (config b)) ;;
         q <- property "toTokenAmount" quote ;;
         let expectedPump := JS.parseInt (toTokenAmount q) in
         b <- this ;;
         print (LogCurrentQuote expectedPump) ;;
         if JS.geq expectedPump (minExpected (config b))
         then Ret true
         else Ret false)
    (fun m =>
     print (ErrShouldTrade m) ;;
     Ret false).

(** [performSwap()], lines 180-203. *)
Definition performSwap : prog string :=
  tryCatch
    (print LogStartingSwap ;;
     b <- this ;;
     quote <- getSwapQuote (fromToken (config b)) (toToken (config b))
                (amount (config b)) ;;
     q <- property "toTokenAmount" quote ;;
     print (LogSwapping (JS.parseInt (toTokenAmount q))) ;;
     signature <- executeSwap quote ;;
     modify incrTradeCount ;;
     print (LogSwapCompleted signature) ;;
     b <- this ;;
     print (LogTotalTrades (tradeCount b) (maxDailyTrades b)) ;;
     Ret signature)
    (fun m =>
     print (ErrSwapFailed m) ;;
     Throw m).

(** The delay of line 232. *)
Definition retryDelay : Z := 30000.

(** The body of the [while] loop of [start()], lines 211-233: one tick. *)
Definition tick : prog unit :=
  tryCatch
    (print LogChecking ;;
     decision <- shouldTrade ;;
     (if decision : bool
      then
        performSwap ;;
        b <- this ;;
        print (LogCooldown (tradeCooldown (config b))) ;;
        sleep (tradeCooldown (config b))
      else
        print LogNotMet) ;;
     b <- this ;;
     sleep (checkInterval (config b)))
    (fun m =>
     print (ErrMainLoop m) ;;
     print LogRetrying ;;
     sleep retryDelay).

(** How a bounded unrolling of the loop ends: the flag was found cleared, or
    the ticks allowed were used up with the loop still going. *)
Inductive loopEnd : Type := Finished | StillRunning.

(** [while (this.isRunning) { tick }], at most [fuel] ticks of it. *)
Fixpoint loop (fuel : nat) : prog loopEnd :=
  match fuel with
  | O => Ret StillRunning
  | S n =>
      b <- this ;;
      if isRunning b
      then tick ;; loop n
      else Ret Finished
  end.

(** [start()], lines 206-235. *)
Definition start (fuel : nat) : prog loopEnd :=
  print LogStarting ;;
  modify (setRunning true) ;;
  loop fuel.

(** ** Running a program *)

(** What an observer of the process sees. *)
Inductive event : Type :=
| Called (c : call)
| Printed (l : line).

(** The state of a run: the object, the number of suspensions so far, the
    events so far (oldest first) and the values the object had before each
    write (oldest first). *)
Record World := {
  bot : Bot;
  now : nat;
  trace : list event;
  past : list Bot
}.

Definition initial (b : Bot) : World :=
  {| bot := b; now := O; trace := []; past := [] |}.

Definition emit (e : event) (w : World) : World :=
  {| bot := bot w; now := now w; trace := trace w ++ [e]; past := past w |}.

Definition write (f : Bot -> Bot) (w : World) : World :=
  {| bot := f (bot w); now := now w; trace := trace w;
     past := past w ++ [bot w] |}.

Definition advance (w : World) : World :=
  {| bot := bot w; now := S (now w); trace := trace w; past := past w |}.

(** All the values the object has had. *)
Definition visited (w : World) : list Bot := past w ++ [bot w].

(** How a program ends. *)
Inductive outcome (A : Type) : Type :=
| Returned (a : A)
| Thrown (m : string).
Arguments Returned {A} a.
Arguments Thrown {A} m.

(** Runs [p]; [answer n c] settles the call [c] awaited at the [n]-th
    suspension, and [during n] is what other code does to the world while the
    program is suspended there. *)
Fixpoint exec {A : Type}
    (answer : nat -> forall c : call, reply c)
    (during : nat -> World -> World)
    (p : prog A) (w : World) : outcome A * World :=
  match p with
  | Ret a => (Returned a, w)
  | Throw m => (Thrown m, w)
  | Read k => exec answer during (k (bot w)) w
  | Modify f k => exec answer during k (write f w)
  | Print l k => exec answer during k (emit (Printed l) w)
  | Await c k =>
      exec answer during (k (answer (now w) c))
        (advance (during (now w) (emit (Called c) w)))
  end.

(** The outside world: the answers to the calls, and the suspensions during
    which other code calls [stop()].  JavaScript runs an async function to its
    next [await] without interleaving, so the suspensions are the only points
    where [stop()] can run.  The handlers of lines 265-275 end the process
    right after calling it; what is modelled here is the method itself. *)
Record Env := {
  answer : nat -> forall c : call, reply c;
  stopDuring : nat -> bool
}.

(** [stop()] called from a handler: it awaits nothing, so nothing runs in
    between. *)
Definition interrupt (env : Env) (n : nat) (w : World) : World :=
  if stopDuring env n
  then snd (exec (answer env) (fun _ w' => w') stop w)
  else w.

Definition run {A : Type} (env : Env) (p : prog A) (w : World)
  : outcome A * World :=
  exec (answer env) (interrupt env) p w.

(** The calls of a trace, in order. *)
Fixpoint calls (t : list event) : list call :=
  match t with
  | Called c :: r => c :: calls r
  | Printed _ :: r => calls r
  | [] => []
  end.

(** The world once the call [c], awaited in [w], has settled. *)
Definition awaited (env : Env) (c : call) (w : World) : World :=
  advance (interrupt env (now w) (emit (Called c) w)).

(** The world after [sleep(ms)] from [w]. *)
Definition slept (env : Env) (ms : Z) (w : World) : World :=
  awaited env (SetTimeout ms) w.

(** The quote request of [shouldTrade] and [performSwap]: the configured pair
    and amount. *)
Definition configuredQuote (b : Bot) : call :=
  quoteRequest b (fromToken (config b)) (toToken (config b))
    (amount (config b)).

(** Whether a trace shows a swap starting after [stop()] was called. *)
Fixpoint swapAfterStop (t : list event) : bool :=
  match t with
  | Printed LogStopping :: r =>
      existsb (fun e => match e with
                        | Printed LogStartingSwap => true
                        | _ => false
                        end) r
  | _ :: r => swapAfterStop r
  | [] => false
  end.

(** ** Sample worlds *)

Definition sampleWallet : Wallet :=
  {| publicKey := "wallet"; signTransaction := fun tx => Resolved tx |}.

Definition sampleQuote : QuoteData :=
  {| fromTokenAddress := fromToken botConfig;
     toTokenAddress := toToken botConfig;
     fromTokenAmount := "100000000";
     toTokenAmount := "2000000" |}.

(** Answers of a ledger and an aggregator that work: half a SOL on the
    account, a quote of 2000000, and a swap that is confirmed. *)
Definition working (n : nat) (c : call) : reply c :=
  match c with
  | GetBalance _ => Resolved 500000000
  | GetQuote _ _ _ _ =>
      Resolved {| code := "0"; msg := ""; data := [sampleQuote] |}
  | PostSwap _ _ _ _ _ => Resolved {| code := "0"; msg := ""; data := ["AQID"] |}
  | SendRawTransaction _ => Resolved "5VERv8"
  | ConfirmTransaction _ => Resolved None
  | SetTimeout _ => tt
  end.

(** The same with a ledger that cannot be reached for the balance. *)
Definition balanceDown (n : nat) (c : call) : reply c :=
  match c return reply c with
  | GetBalance _ => Rejected "fetch failed"
  | other => working n other
  end.

(** The same with an account that holds nothing. *)
Definition emptyAccount (n : nat) (c : call) : reply c :=
  match c return reply c with
  | GetBalance _ => Resolved 0
  | other => working n other
  end.

(** The same with an aggregator that cannot be reached for quotes. *)
Definition quoteDown (n : nat) (c : call) : reply c :=
  match c return reply c with
  | GetQuote _ _ _ _ => Rejected "timeout of 5000ms exceeded"
  | other => working n other
  end.

(** The same with an aggregator that refuses to quote. *)
Definition quoteRefused (n : nat) (c : call) : reply c :=
  match c return reply c with
  | GetQuote _ _ _ _ =>
      Resolved {| code := "51000"; msg := "Parameter error"; data := [] |}
  | other => working n other
  end.

(** The same with a swap that the ledger reports as failed. *)
Definition swapFails (n : nat) (c : call) : reply c :=
  match c return reply c with
  | ConfirmTransaction _ => Resolved (Some "InstructionError")
  | other => working n other
  end.

Definition never (n : nat) : bool := false.

Definition workingEnv : Env := {| answer := working; stopDuring := never |}.
Definition balanceDownEnv : Env :=
  {| answer := balanceDown; stopDuring := never |}.
Definition emptyAccountEnv : Env :=
  {| answer := emptyAccount; stopDuring := never |}.
Definition quoteDownEnv : Env := {| answer := quoteDown; stopDuring := never |}.
Definition quoteRefusedEnv : Env :=
  {| answer := quoteRefused; stopDuring := never |}.
Definition swapFailsEnv : Env := {| answer := swapFails; stopDuring := never |}.

(** [stop()] is called while the first balance lookup is pending. *)
Definition stopWhileEvaluating : Env :=
  {| answer := working; stopDuring := Nat.eqb 0 |}.

(** The bot of the repository, as constructed on line 262. *)
Definition sampleBot : Bot := newBot botConfig sampleWallet.

(** A bot that has made as many trades as it may: both numbers are 5. *)
Definition exhaustedBot : Bot :=
  {| config := botConfig; wallet := sampleWallet; isRunning := true;
     tradeCount := 5; maxDailyTrades := 5 |}.

(** A configuration without [minExpectedAmount]. *)
Definition noMinimum : Config :=
  {| fromToken := fromToken botConfig; toToken := toToken botConfig;
     amount := amount botConfig; minExpectedAmount := None;
     slippage := slippage botConfig; checkInterval := checkInterval botConfig;
     tradeCooldown := tradeCooldown botConfig;
     cfgMaxDailyTrades := cfgMaxDailyTrades botConfig |}.

(** The invariant of the session: the trades made do not exceed the limit. *)
Definition withinLimit (b : Bot) : Prop := tradeCount b <= maxDailyTrades b.

(** A configuration whose limit, when given, is not negative. *)
Definition limitIsCount (cfg : Config) : Prop :=
  match cfgMaxDailyTrades cfg with
  | Some m => 0 <= m
  | None => True
  end.

(** ** What a program writes *)

(** [b'] differs from [b] in the flag [isRunning] at most. *)
Definition stable (b b' : Bot) : Prop :=
  tradeCount b' = tradeCount b /\
  maxDailyTrades b' = maxDailyTrades b /\
  config b' = config b /\
  wallet b' = wallet b.

(** From [w] to [w'] the object only went through values that differ from
    [bot w] in the flag. *)
Definition calm (w w' : World) : Prop :=
  exists l, past w' = past w ++ l /\
            Forall (stable (bot w)) l /\
            stable (bot w) (bot w').

(** A flag that is cleared in [b] is cleared in [b']. *)
Definition staysStopped (b b' : Bot) : Prop :=
  isRunning b = false -> isRunning b' = false.

(** Every write of [p] takes the object to a value related to it by [R]. *)
Fixpoint writes (R : Bot -> Bot -> Prop) {A : Type} (p : prog A) : Prop :=
  match p with
  | Ret _ => True
  | Throw _ => True
  | Read k => forall b, writes R (k b)
  | Modify f k => (forall b, R b (f b)) /\ writes R k
  | Print _ k => writes R k
  | Await c k => forall r, writes R (k r)
  end.

(** Every write of [p] changes the flag at most. *)
Definition quiet {A : Type} (p : prog A) : Prop := writes stable p.

(** ** Loading the wallet *)

Module Str.

(** [s.includes(c)] for a string [c] of one character. *)
Fixpoint includes (c : ascii) (s : string) : bool :=
  match s with
  | String a r => Ascii.eqb a c || includes c r
  | EmptyString => false
  end.

(** [s.split(c)] for a separator [c] of one character: the pieces between
    its occurrences; a string without it is the only piece. *)
Fixpoint split (c : ascii) (s : string) : list string :=
  match s with
  | String a r =>
      if Ascii.eqb a c then EmptyString :: split c r
      else match split c r with
           | piece :: pieces => String a piece :: pieces
           | [] => [String a EmptyString]
           end
  | EmptyString => [EmptyString]
  end.

Fixpoint trimEnd (s : string) : string :=
  match s with
  | String a r =>
      match trimEnd r with
      | EmptyString => if JS.is_space a then EmptyString
                       else String a EmptyString
      | kept => String a kept
      end
  | EmptyString => EmptyString
  end.

(** [s.trim()] (the white space of [JS.is_space], which is the ASCII part
    of what the built-in removes). *)
Definition trim (s : string) : string := trimEnd (JS.skip_spaces s).

(** Whether every character of [s] satisfies [f]. *)
Fixpoint every (f : ascii -> bool) (s : string) : bool :=
  match s with
  | String a r => f a && every f r
  | EmptyString => true
  end.

(** The number of occurrences of [c] in [s]. *)
Fixpoint count (c : ascii) (s : string) : nat :=
  match s with
  | String a r => (if Ascii.eqb a c then 1 else 0) + count c r
  | EmptyString => 0
  end.

End Str.

(** An element of [new Uint8Array(numbers)]: the number modulo 256, and 0
    for [NaN] (the number is the exact integer of [JS.parseInt]; the code
    reduces the double, which is the same for safe integers). *)
Definition toUint8 (v : option Z) : Z :=
  match v with
  | Some z => z mod 256
  | None => 0
  end.

(** How [loadWallet] ends: with the key pair, or with [process.exit(code)]
    after printing the message of the error. *)
Inductive loaded : Type :=
| Loaded (w : Wallet)
| Exited (exitCode : Z) (message : string).

Section LoadWallet.

(** What the libraries make of the text: [new Uint8Array(JSON.parse(s))] (or
    the error [JSON.parse] throws), [new Uint8Array(Buffer.from(s,
    'base64'))], and [Keypair.fromSecretKey(bytes)] (or the error it
    throws). *)
Context (jsonBytes : string -> result (list Z)).
Context (base64Bytes : string -> list Z).
Context (fromSecretKey : list Z -> result Wallet).

(** [new Uint8Array(privateKeyBytes)] of lines 28-40, by the format of the
    text. *)
Definition secretKeyBytes (privateKeyString : string) : result (list Z) :=
  if Str.includes "[" privateKeyString && Str.includes "]" privateKeyString
  then jsonBytes privateKeyString
  else if Str.includes "," privateKeyString
  then Resolved (map (fun x => toUint8 (JS.parseInt (Str.trim x)))
                   (Str.split "," privateKeyString))
  else Resolved (base64Bytes privateKeyString).

(** [loadWallet()], lines 22-46; [file] is what
    [fs.readFileSync(accountPath, 'utf8')] returns or throws. *)
Definition loadWallet (file : result string) : loaded :=
  match file with
  | Resolved content =>
      match secretKeyBytes (Str.trim content) with
      | Resolved bytes =>
          match fromSecretKey bytes with
          | Resolved w => Loaded w
          | Rejected m => Exited 1 m
          end
      | Rejected m => Exited 1 m
      end
  | Rejected m => Exited 1 m
  end.

End LoadWallet.

(** The text of a key written as numbers separated by commas. *)
Definition commaList (bytes : list Z) : string :=
  String.concat "," (map JS.toString bytes).

(** A library that accepts keys of 64 bytes, as [Keypair.fromSecretKey]
    does, and a JSON reader that accepts nothing. *)
Definition sampleFromSecretKey (bytes : list Z) : result Wallet :=
  if (List.length bytes =? 64)%nat
  then Resolved sampleWallet
  else Rejected "bad secret key size".

Definition noJson (s : string) : result (list Z) :=
  Rejected "Unexpected token".

Definition noBase64 (s : string) : list Z := [].

(** ** Histories *)

(** Adjacent values of a history are related by [R]. *)
Fixpoint chain (R : Bot -> Bot -> Prop) (l : list Bot) : Prop :=
  match l with
  | a :: r =>
      match r with
      | b :: _ => R a b /\ chain R r
      | [] => True
      end
  | [] => True
  end.

(** One write of a run: the configuration, the wallet and the limit are
    kept, and the counter is kept or incremented. *)
Definition tradeStep (b b' : Bot) : Prop :=
  config b' = config b /\
  wallet b' = wallet b /\
  maxDailyTrades b' = maxDailyTrades b /\
  (tradeCount b' = tradeCount b \/ tradeCount b' = tradeCount b + 1).

(** A write that keeps the flag. *)
Definition sameFlag (b b' : Bot) : Prop := isRunning b' = isRunning b.

(** The request of lines 92-105, built from the quote. *)
Definition swapRequest (b : Bot) (q : QuoteData) : call :=
  PostSwap (fromTokenAddress q) (toTokenAddress q) (fromTokenAmount q)
    (JS.or_str (slippage (config b)) "1") (publicKey (wallet b)).

(** The same answers with a confirmation that the client gives up on. *)
Definition confirmTimesOut (n : nat) (c : call) : reply c :=
  match c return reply c with
  | ConfirmTransaction _ =>
      Rejected "Transaction was not confirmed in 30.00 seconds"
  | other => working n other
  end.

Definition confirmTimesOutEnv : Env :=
  {| answer := confirmTimesOut; stopDuring := never |}.

(** A running bot of the repository. *)
Definition runningBot : Bot := setRunning true sampleBot.

(** The integers a JavaScript number holds exactly, up to
    [Number.MAX_SAFE_INTEGER]. *)
Definition safeInteger (n : Z) : Prop := Z.abs n <= 9007199254740991.

(** A configuration whose trade amount, required balance and threshold are
    safe integers: there the sum of line 148 and the comparisons of lines 150
    and 168, which the code makes on doubles, are the exact ones. *)
Definition exactAmounts (cfg : Config) : Prop :=
  safeInteger (amount cfg) /\
  safeInteger (requiredBalance cfg) /\
  safeInteger (minExpected cfg).

(** Whether every character of [s] is ASCII. *)
Definition asciiOnly (s : string) : bool :=
  Str.every (fun c => (nat_of_ascii c <? 128)%nat) s.

(** A text on which [JS.parseInt] is the built-in [parseInt]: it is ASCII,
    so that the white space skipped is the same, and the integer read, when
    there is one, is a safe integer, so that no rounding happens. *)
Definition exactNumber (s : string) : Prop :=
  asciiOnly s = true /\
  forall v, JS.parseInt s = Some v -> safeInteger v.

(** An account that holds the trade amount and nothing for the fee. *)
Definition thinAccount (n : nat) (c : call) : reply c :=
  match c return reply c with
  | GetBalance _ => Resolved (amount botConfig)
  | other => working n other
  end.

Definition thinAccountEnv : Env :=
  {| answer := thinAccount; stopDuring := never |}.

(** A confirmation that resolves with an error that is the empty string. *)
Definition emptyError (n : nat) (c : call) : reply c :=
  match c return reply c with
  | ConfirmTransaction _ => Resolved (Some "")
  | other => working n other
  end.

Definition emptyErrorEnv : Env :=
  {| answer := emptyError; stopDuring := never |}.

(** How [executeSwap] fails: it prints the message and throws it again
    (lines 131-134). *)
Definition swapFailure (m : string) (w : World) : outcome string * World :=
  (Thrown m, emit (Printed (ErrExecutingSwap m)) w).

(** How [performSwap] fails: it prints the message and throws it again
    (lines 199-202). *)
Definition tradeFailure (m : string) (w : World) : outcome string * World :=
  (Thrown m, emit (Printed (ErrSwapFailed m)) w).

(** A decimal digit. *)
Definition isDecimalDigit (c : ascii) : bool :=
  match JS.digit_value 10 c with
  | Some _ => true
  | None => false
  end.

Definition notSpace (c : ascii) : bool := negb (JS.is_space c).

(** A line feed, and a key of 64 bytes. *)
Definition newline : string := String (ascii_of_nat 10) EmptyString.

Definition sampleKey : list Z := repeat 7 64%nat.

(** * Properties *)

(** ** The interpreter *)

Section Exec.

Context (ans : nat -> forall c : call, reply c).
Context (during : nat -> World -> World).

Lemma exec_bind {A B : Type} (p : prog A) (f : A -> prog B) (w : World) :
  exec ans during (bind p f) w =
  match exec ans during p w with
  | (Returned a, w1) => exec ans during (f a) w1
  | (Thrown m, w1) => (Thrown m, w1)
  end.
Proof.
  revert w. induction p as [a|m|k IH|g k IH|l k IH|c k IH]; intro w; cbn;
    auto.
Qed.

Lemma exec_tryCatch {A : Type} (p : prog A) (h : string -> prog A)
    (w : World) :
  exec ans during (tryCatch p h) w =
  match exec ans during p w with
  | (Returned a, w1) => (Returned a, w1)
  | (Thrown m, w1) => exec ans during (h m) w1
  end.
Proof.
  revert w. induction p as [a|m|k IH|g k IH|l k IH|c k IH]; intro w; cbn;
    auto.
Qed.

End Exec.

Lemma run_bind {A B : Type} env (p : prog A) (f : A -> prog B) w :
  run env (bind p f) w =
  match run env p w with
  | (Returned a, w1) => run env (f a) w1
  | (Thrown m, w1) => (Thrown m, w1)
  end.
Proof. apply exec_bind. Qed.

Lemma run_tryCatch {A : Type} env (p : prog A) h w :
  run env (tryCatch p h) w =
  match run env p w with
  | (Returned a, w1) => (Returned a, w1)
  | (Thrown m, w1) => run env (h m) w1
  end.
Proof. apply exec_tryCatch. Qed.

Lemma run_ret {A : Type} env (a : A) w : run env (Ret a) w = (Returned a, w).
Proof. reflexivity. Qed.

Lemma run_throw {A : Type} env m w :
  run env (@Throw A m) w = (Thrown m, w).
Proof. reflexivity. Qed.

Lemma run_read {A : Type} env (k : Bot -> prog A) w :
  run env (Read k) w = run env (k (bot w)) w.
Proof. reflexivity. Qed.

Lemma run_modify {A : Type} env f (k : prog A) w :
  run env (Modify f k) w = run env k (write f w).
Proof. reflexivity. Qed.

Lemma run_print {A : Type} env l (k : prog A) w :
  run env (Print l k) w = run env k (emit (Printed l) w).
Proof. reflexivity. Qed.

Lemma run_await {A : Type} env c (k : reply c -> prog A) w :
  run env (Await c k) w =
  run env (k (answer env (now w) c))
    (advance (interrupt env (now w) (emit (Called c) w))).
Proof. reflexivity. Qed.

Lemma run_sleep env ms w : run env (sleep ms) w = (Returned tt, slept env ms w).
Proof.
  unfold sleep, await. rewrite run_await.
  destruct (answer env (now w) (SetTimeout ms)). reflexivity.
Qed.

(** ** What a call of [stop()] changes *)

Lemma interrupt_cases env n w :
  interrupt env n w = w \/
  interrupt env n w = write (setRunning false) (emit (Printed LogStopping) w).
Proof.
  unfold interrupt. destruct (stopDuring env n); [right | left]; reflexivity.
Qed.

Lemma now_interrupt env n w : now (interrupt env n w) = now w.
Proof. destruct (interrupt_cases env n w) as [-> | ->]; reflexivity. Qed.

Lemma config_interrupt env n w :
  config (bot (interrupt env n w)) = config (bot w).
Proof. destruct (interrupt_cases env n w) as [-> | ->]; reflexivity. Qed.

Lemma wallet_interrupt env n w :
  wallet (bot (interrupt env n w)) = wallet (bot w).
Proof. destruct (interrupt_cases env n w) as [-> | ->]; reflexivity. Qed.

Lemma calls_app t u : calls (t ++ u) = calls t ++ calls u.
Proof.
  induction t as [|[c|l] t IH]; cbn; [reflexivity | f_equal; exact IH | exact IH].
Qed.

Lemma calls_interrupt env n w :
  calls (trace (interrupt env n w)) = calls (trace w).
Proof.
  destruct (interrupt_cases env n w) as [-> | ->]; cbn; [reflexivity|].
  rewrite calls_app. cbn. apply app_nil_r.
Qed.

Lemma calls_awaited env c w :
  calls (trace (awaited env c w)) = calls (trace w) ++ [c].
Proof.
  unfold awaited. cbn. rewrite calls_interrupt. cbn. apply calls_app.
Qed.

Lemma calls_slept env ms w :
  calls (trace (slept env ms w)) = calls (trace w) ++ [SetTimeout ms].
Proof. apply calls_awaited. Qed.

Lemma calls_printed l w :
  calls (trace (emit (Printed l) w)) = calls (trace w).
Proof. cbn. rewrite calls_app. cbn. apply app_nil_r. Qed.

(** A flag that was cleared stays cleared while the program is suspended. *)
Lemma isRunning_interrupt_false env n w :
  isRunning (bot w) = false -> isRunning (bot (interrupt env n w)) = false.
Proof.
  intro H. destruct (interrupt_cases env n w) as [-> | ->]; [exact H|].
  reflexivity.
Qed.

(** ** Programs that leave the counters alone *)

Lemma stable_refl b : stable b b.
Proof. repeat split. Qed.

Lemma stable_trans b1 b2 b3 : stable b1 b2 -> stable b2 b3 -> stable b1 b3.
Proof.
  intros (T1 & M1 & C1 & W1) (T2 & M2 & C2 & W2).
  repeat split; congruence.
Qed.

Lemma calm_refl w : calm w w.
Proof.
  exists []. rewrite app_nil_r. auto using stable_refl.
Qed.

Lemma calm_trans w1 w2 w3 : calm w1 w2 -> calm w2 w3 -> calm w1 w3.
Proof.
  intros (l1 & P1 & F1 & S1) (l2 & P2 & F2 & S2).
  exists (l1 ++ l2). split; [|split].
  - rewrite P2, P1. symmetry. apply app_assoc.
  - apply Forall_app. split; [exact F1|].
    eapply Forall_impl; [|exact F2]. intros b Hb.
    eapply stable_trans; eauto.
  - eapply stable_trans; eauto.
Qed.

Lemma calm_emit e w : calm w (emit e w).
Proof. exists []. cbn. rewrite app_nil_r. auto using stable_refl. Qed.

Lemma calm_advance w : calm w (advance w).
Proof. exists []. cbn. rewrite app_nil_r. auto using stable_refl. Qed.

Lemma calm_write f w : stable (bot w) (f (bot w)) -> calm w (write f w).
Proof.
  intro H. exists [bot w]. cbn. auto using stable_refl.
Qed.

Lemma calm_interrupt env n w : calm w (interrupt env n w).
Proof.
  destruct (interrupt_cases env n w) as [-> | ->]; [apply calm_refl|].
  eapply calm_trans; [apply calm_emit|].
  apply calm_write. repeat split.
Qed.

Lemma calm_awaited env c w : calm w (awaited env c w).
Proof.
  unfold awaited.
  eapply calm_trans; [apply calm_emit|].
  eapply calm_trans; [apply calm_interrupt|]. apply calm_advance.
Qed.

Lemma calm_slept env ms w : calm w (slept env ms w).
Proof. apply calm_awaited. Qed.

Section Writes.

Context (R : Bot -> Bot -> Prop).

Lemma writes_bind {A B : Type} (p : prog A) (f : A -> prog B) :
  writes R p -> (forall a, writes R (f a)) -> writes R (bind p f).
Proof.
  intros Hp Hf.
  induction p as [a|m|k IH|g k IH|l k IH|c k IH]; cbn in *; auto.
  destruct Hp; auto.
Qed.

Lemma writes_tryCatch {A : Type} (p : prog A) h :
  writes R p -> (forall m, writes R (h m)) -> writes R (tryCatch p h).
Proof.
  intros Hp Hh.
  induction p as [a|m|k IH|g k IH|l k IH|c k IH]; cbn in *; auto.
  destruct Hp; auto.
Qed.

Lemma writes_settle {A : Type} (r : result A) : writes R (settle r).
Proof. destruct r; exact I. Qed.

Lemma writes_property {A : Type} name (o : option A) :
  writes R (property name o).
Proof. destruct o; exact I. Qed.

End Writes.

(** Discharges [writes R p] for a program [p] that writes nothing. *)
Ltac writes_tac :=
  repeat first
    [ apply writes_tryCatch | apply writes_bind
    | apply writes_settle | apply writes_property
    | match goal with
      | |- writes _ (match ?x with _ => _ end) => destruct x
      | |- writes _ (if ?x then _ else _) => destruct x
      | |- forall _, _ => intro
      end
    | exact I
    | progress cbn ].

Lemma writes_checkBalance R : writes R checkBalance.
Proof. unfold checkBalance. writes_tac. Qed.

Lemma writes_getSwapQuote R f t a : writes R (getSwapQuote f t a).
Proof. unfold getSwapQuote. writes_tac. Qed.

Lemma writes_executeSwap R q : writes R (executeSwap q).
Proof. unfold executeSwap. writes_tac. Qed.

Lemma writes_shouldTrade R : writes R shouldTrade.
Proof.
  unfold shouldTrade.
  apply writes_tryCatch; [|intro; exact I].
  apply writes_bind; [exact (fun _ => I)|]. intro b.
  destruct (maxDailyTrades b <=? tradeCount b); [exact I|].
  apply writes_bind; [apply writes_checkBalance|]. intro bal.
  apply writes_bind; [exact (fun _ => I)|]. intro b1.
  destruct (bal <? requiredBalance (config b1)); [exact I|].
  apply writes_bind; [apply writes_getSwapQuote|]. intro q.
  writes_tac.
Qed.

Lemma writes_sleep R ms : writes R (sleep ms).
Proof. intro r. exact I. Qed.

(** The only write of [performSwap] is the increment of the counter. *)
Lemma writes_performSwap R :
  (forall b, R b (incrTradeCount b)) -> writes R performSwap.
Proof.
  intro HR. unfold performSwap.
  apply writes_tryCatch; [|intro; exact I].
  apply writes_bind; [exact I|]. intros _.
  apply writes_bind; [exact (fun _ => I)|]. intro b.
  apply writes_bind; [apply writes_getSwapQuote|]. intro quote.
  apply writes_bind; [apply writes_property|]. intro q.
  apply writes_bind; [exact I|]. intros _.
  apply writes_bind; [apply writes_executeSwap|]. intro signature.
  apply writes_bind; [split; [exact HR | exact I]|]. intros _.
  writes_tac.
Qed.

Lemma writes_tick R : (forall b, R b (incrTradeCount b)) -> writes R tick.
Proof.
  intro HR. unfold tick.
  apply writes_tryCatch.
  - apply writes_bind; [exact I|]. intros _.
    apply writes_bind; [apply writes_shouldTrade|]. intros [|].
    + apply writes_bind.
      * apply writes_bind; [apply writes_performSwap, HR|]. intros _.
        apply writes_bind; [exact (fun _ => I)|]. intro b.
        apply writes_bind; [exact I|]. intros _. apply writes_sleep.
      * intros _. apply writes_bind; [exact (fun _ => I)|]. intro b.
        apply writes_sleep.
    + apply writes_bind; [exact I|]. intros _.
      apply writes_bind; [exact (fun _ => I)|]. intro b. apply writes_sleep.
  - intro m. apply writes_bind; [exact I|]. intros _.
    apply writes_bind; [exact I|]. intros _. apply writes_sleep.
Qed.

Lemma quiet_calm {A : Type} env (p : prog A) :
  quiet p -> forall w o w', run env p w = (o, w') -> calm w w'.
Proof.
  unfold quiet.
  induction p as [a|m|k IH|g k IH|l k IH|c k IH]; intros Hq w o w' E;
    cbn in Hq.
  - rewrite run_ret in E. injection E as _ <-. apply calm_refl.
  - rewrite run_throw in E. injection E as _ <-. apply calm_refl.
  - rewrite run_read in E. eapply IH; eauto.
  - rewrite run_modify in E. destruct Hq as [Hg Hk].
    eapply calm_trans; [apply calm_write, Hg|]. eapply IH; eauto.
  - rewrite run_print in E.
    eapply calm_trans; [apply calm_emit|]. eapply IH; eauto.
  - rewrite run_await in E.
    eapply calm_trans; [apply calm_emit|].
    eapply calm_trans; [apply calm_interrupt|].
    eapply calm_trans; [apply calm_advance|]. eapply IH; eauto.
Qed.

Lemma quiet_getSwapQuote f t a : quiet (getSwapQuote f t a).
Proof. apply writes_getSwapQuote. Qed.

Lemma quiet_executeSwap q : quiet (executeSwap q).
Proof. apply writes_executeSwap. Qed.

Lemma quiet_shouldTrade : quiet shouldTrade.
Proof. apply writes_shouldTrade. Qed.

(** ** The decision procedure *)

Arguments interrupt : simpl never.

Lemma run_shouldTrade_at_limit env w :
  maxDailyTrades (bot w) <= tradeCount (bot w) ->
  run env shouldTrade w = (Returned false, emit (Printed LogLimitReached) w).
Proof.
  intro H. apply Z.leb_le in H.
  unfold shouldTrade, run. cbn. rewrite H. reflexivity.
Qed.

(** C2.  When [tradeCount >= maxDailyTrades], [shouldTrade] returns false
    whatever the ledger and the aggregator would answer, and it does so
    without awaiting anything: it only prints that the limit is reached, the
    calls of the trace are those made before, and no suspension happened. *)
Theorem shouldTrade_limit_reached env w :
  maxDailyTrades (bot w) <= tradeCount (bot w) ->
  run env shouldTrade w = (Returned false, emit (Printed LogLimitReached) w) /\
  calls (trace (snd (run env shouldTrade w))) = calls (trace w) /\
  now (snd (run env shouldTrade w)) = now w.
Proof.
  intro H. rewrite (run_shouldTrade_at_limit env w H).
  split; [reflexivity|]. split; [|reflexivity].
  apply calls_printed.
Qed.

Lemma shouldTrade_limit_reached_witness :
  maxDailyTrades (bot (initial exhaustedBot))
    <= tradeCount (bot (initial exhaustedBot)) /\
  run workingEnv shouldTrade (initial exhaustedBot) =
    (Returned false, emit (Printed LogLimitReached) (initial exhaustedBot)).
Proof.
  split.
  - cbn. lia.
  - apply (shouldTrade_limit_reached workingEnv (initial exhaustedBot)).
    cbn. lia.
Defined.

Lemma config_awaited env c w : config (bot (awaited env c w)) = config (bot w).
Proof. unfold awaited. cbn. rewrite config_interrupt. reflexivity. Qed.

Lemma now_awaited env c w : now (awaited env c w) = S (now w).
Proof. unfold awaited. cbn. rewrite now_interrupt. reflexivity. Qed.

(** What [checkBalance] does, by the answer of the ledger. *)
Lemma run_checkBalance env w :
  let c := GetBalance (publicKey (wallet (bot w))) in
  run env checkBalance w =
  match answer env (now w) c with
  | Resolved bal =>
      (Returned bal, emit (Printed (LogBalance bal)) (awaited env c w))
  | Rejected m =>
      (Returned 0, emit (Printed (ErrCheckingBalance m)) (awaited env c w))
  end.
Proof.
  unfold checkBalance, run, awaited. cbn.
  destruct (answer env (now w) (GetBalance (publicKey (wallet (bot w)))));
    reflexivity.
Qed.

(** What [getSwapQuote] does, by the answer of the aggregator. *)
Lemma run_getSwapQuote env fromT toT amt w :
  let c := quoteRequest (bot w) fromT toT amt in
  run env (getSwapQuote fromT toT amt) w =
  match answer env (now w) c with
  | Resolved r =>
      if String.eqb (code r) "0"
      then (Returned (nth_error (data r) 0), awaited env c w)
      else (Thrown ("API Error: " ++ msg r),
            emit (Printed (ErrGettingQuote ("API Error: " ++ msg r)))
              (awaited env c w))
  | Rejected m =>
      (Thrown m, emit (Printed (ErrGettingQuote m)) (awaited env c w))
  end.
Proof.
  unfold getSwapQuote, run, awaited. cbn.
  destruct (answer env (now w) (quoteRequest (bot w) fromT toT amt)) as [r|m];
    cbn; [|reflexivity].
  destruct (String.eqb (code r) "0"); reflexivity.
Qed.

Arguments checkBalance : simpl never.
Arguments getSwapQuote : simpl never.
Arguments executeSwap : simpl never.

(** [shouldTrade] once the limit is known not to be reached: the balance
    check. *)
Lemma run_shouldTrade_below_limit env w :
  tradeCount (bot w) < maxDailyTrades (bot w) ->
  run env shouldTrade w =
  match run env checkBalance w with
  | (Returned balance, w1) =>
      if balance <? requiredBalance (config (bot w1))
      then (Returned false, emit (Printed LogInsufficientBalance) w1)
      else
        match run env (getSwapQuote (fromToken (config (bot w1)))
                         (toToken (config (bot w1)))
                         (amount (config (bot w1)))) w1 with
        | (Returned (Some q), w2) =>
            (Returned (JS.geq (JS.parseInt (toTokenAmount q))
                         (minExpected (config (bot w2)))),
             emit (Printed (LogCurrentQuote (JS.parseInt (toTokenAmount q))))
               w2)
        | (Returned None, w2) =>
            (Returned false,
             emit (Printed (ErrShouldTrade
               "Cannot read properties of undefined (reading 'toTokenAmount')"))
               w2)
        | (Thrown m, w2) =>
            (Returned false, emit (Printed (ErrShouldTrade m)) w2)
        end
  | (Thrown m, w1) => (Returned false, emit (Printed (ErrShouldTrade m)) w1)
  end.
Proof.
  intro H. apply Z.leb_gt in H.
  unfold shouldTrade. rewrite run_tryCatch, run_bind.
  unfold this at 1. rewrite run_read, run_ret. rewrite H.
  rewrite run_bind.
  destruct (run env checkBalance w) as [[balance|m] w1]; [|reflexivity].
  rewrite run_bind. unfold this at 1. rewrite run_read, run_ret.
  destruct (balance <? requiredBalance (config (bot w1))); [reflexivity|].
  rewrite run_bind.
  destruct (run env (getSwapQuote _ _ _) w1) as [[[q|]|m] w2];
    [|reflexivity|reflexivity].
  cbn. destruct (JS.geq _ _); reflexivity.
Qed.

(** The balance [shouldTrade] works with: a lookup that failed counts as 0. *)
Lemma run_shouldTrade_short env w :
  let c := GetBalance (publicKey (wallet (bot w))) in
  tradeCount (bot w) < maxDailyTrades (bot w) ->
  match answer env (now w) c with
  | Resolved bal => bal
  | Rejected _ => 0
  end < requiredBalance (config (bot w)) ->
  run env shouldTrade w =
  (Returned false,
   emit (Printed LogInsufficientBalance)
     (emit (Printed match answer env (now w) c with
                    | Resolved bal => LogBalance bal
                    | Rejected m => ErrCheckingBalance m
                    end)
        (awaited env c w))).
Proof.
  intros c Hlim Hbal. rewrite run_shouldTrade_below_limit by exact Hlim.
  rewrite run_checkBalance. fold c.
  destruct (answer env (now w) c) as [bal|m]; cbn [bot emit];
    rewrite config_awaited;
    apply Z.ltb_lt in Hbal; rewrite Hbal; reflexivity.
Qed.

(** [shouldTrade] when the limit is not reached and the balance suffices: the
    quote. *)
Lemma run_shouldTrade_funded env w bal :
  let c := GetBalance (publicKey (wallet (bot w))) in
  let w1 := emit (Printed (LogBalance bal)) (awaited env c w) in
  let w2 := awaited env (configuredQuote (bot w)) w1 in
  tradeCount (bot w) < maxDailyTrades (bot w) ->
  answer env (now w) c = Resolved bal ->
  requiredBalance (config (bot w)) <= bal ->
  run env shouldTrade w =
  match answer env (S (now w)) (configuredQuote (bot w)) with
  | Resolved r =>
      if String.eqb (code r) "0"
      then
        match nth_error (data r) 0 with
        | Some q =>
            (Returned (JS.geq (JS.parseInt (toTokenAmount q))
                         (minExpected (config (bot w)))),
             emit (Printed (LogCurrentQuote (JS.parseInt (toTokenAmount q))))
               w2)
        | None =>
            (Returned false,
             emit (Printed (ErrShouldTrade
               "Cannot read properties of undefined (reading 'toTokenAmount')"))
               w2)
        end
      else
        (Returned false,
         emit (Printed (ErrShouldTrade ("API Error: " ++ msg r)))
           (emit (Printed (ErrGettingQuote ("API Error: " ++ msg r))) w2))
  | Rejected m =>
      (Returned false,
       emit (Printed (ErrShouldTrade m))
         (emit (Printed (ErrGettingQuote m)) w2))
  end.
Proof.
  intros c w1 w2 Hlim Hans Hbal.
  rewrite run_shouldTrade_below_limit by exact Hlim.
  rewrite run_checkBalance. fold c. rewrite Hans. fold w1.
  assert (C1 : config (bot w1) = config (bot w)).
  { unfold w1. cbn [bot emit]. apply config_awaited. }
  assert (N1 : now w1 = S (now w)).
  { unfold w1. cbn [now emit]. apply now_awaited. }
  rewrite run_getSwapQuote.
  unfold configuredQuote, quoteRequest in *.
  rewrite !C1, N1. apply Z.ltb_ge in Hbal. rewrite Hbal.
  destruct (answer env (S (now w)) _) as [r|m]; [|reflexivity].
  destruct (String.eqb (code r) "0"); [|reflexivity].
  destruct (nth_error (data r) 0) as [q|]; [|reflexivity].
  unfold w2. rewrite config_awaited, C1. reflexivity.
Qed.

Lemma printed_last l w : In (Printed l) (trace (emit (Printed l) w)).
Proof. cbn. apply in_or_app. right. left. reflexivity. Qed.

Lemma printed_before e l w :
  In (Printed l) (trace w) -> In (Printed l) (trace (emit e w)).
Proof. intro H. cbn. apply in_or_app. left. exact H. Qed.

(** C5.  When the balance the ledger reports is below the trade amount plus
    the fee margin, [shouldTrade] returns false, whatever quote the aggregator
    would give: the only call it can have made is the balance lookup, and no
    quote request is among its calls.  The amount, the sum and the balance
    are safe integers, where the addition of line 148 and the comparison of
    line 150, made on doubles, are exact. *)
Theorem shouldTrade_insufficient_balance env w bal :
  safeInteger (amount (config (bot w))) ->
  safeInteger (requiredBalance (config (bot w))) ->
  safeInteger bal ->
  answer env (now w) (GetBalance (publicKey (wallet (bot w)))) = Resolved bal ->
  bal < requiredBalance (config (bot w)) ->
  fst (run env shouldTrade w) = Returned false /\
  exists new,
    calls (trace (snd (run env shouldTrade w))) = calls (trace w) ++ new /\
    (new = [] \/ new = [GetBalance (publicKey (wallet (bot w)))]) /\
    forall f t a s, ~ In (GetQuote f t a s) new.
Proof.
  intros _ _ _ Hans Hbal.
  destruct (Z.le_gt_cases (maxDailyTrades (bot w)) (tradeCount (bot w)))
    as [Hlim | Hlim].
  - rewrite (run_shouldTrade_at_limit env w Hlim). split; [reflexivity|].
    exists []. split; [|split].
    + cbn [snd]. rewrite calls_printed. symmetry. apply app_nil_r.
    + left. reflexivity.
    + intros f t a s [].
  - pose proof (run_shouldTrade_short env w) as E. cbv zeta in E.
    rewrite Hans in E. rewrite (E Hlim Hbal). split; [reflexivity|].
    exists [GetBalance (publicKey (wallet (bot w)))]. split; [|split].
    + cbn [snd]. rewrite !calls_printed. apply calls_awaited.
    + right. reflexivity.
    + intros f t a s [H | []]. discriminate H.
Qed.

Lemma shouldTrade_insufficient_balance_witness :
  answer thinAccountEnv (now (initial sampleBot))
    (GetBalance (publicKey (wallet (bot (initial sampleBot)))))
  = Resolved 100000000 /\
  amount botConfig <= 100000000 < requiredBalance botConfig /\
  safeInteger (requiredBalance botConfig) /\
  fst (run thinAccountEnv shouldTrade (initial sampleBot)) = Returned false.
Proof.
  split; [reflexivity|]. split; [cbv; split; [discriminate | reflexivity]|].
  split; [cbv; discriminate|].
  apply (shouldTrade_insufficient_balance thinAccountEnv (initial sampleBot)
           100000000);
    first [reflexivity | cbv; discriminate].
Defined.

(** C3.  [shouldTrade] never throws: in every world and whatever the
    environment answers it returns a decision.  When the balance lookup is
    rejected (and the required balance is positive, as for every positive
    trade amount) the decision is false and the error is printed; when the
    quote request is rejected, or answered with a code other than ['0'], the
    decision is false and the error is printed by [getSwapQuote] and by
    [shouldTrade]; when the answer has code ['0'] and no quote in it, the
    decision is false and [shouldTrade] prints the error of reading the
    amount of [undefined]. *)
Theorem shouldTrade_never_throws env w :
  let balanceCall := GetBalance (publicKey (wallet (bot w))) in
  let after := snd (run env shouldTrade w) in
  (exists decision, fst (run env shouldTrade w) = Returned decision) /\
  (forall m,
     tradeCount (bot w) < maxDailyTrades (bot w) ->
     0 < requiredBalance (config (bot w)) ->
     answer env (now w) balanceCall = Rejected m ->
     fst (run env shouldTrade w) = Returned false /\
     In (Printed (ErrCheckingBalance m)) (trace after) /\
     In (Printed LogInsufficientBalance) (trace after)) /\
  (forall bal m,
     tradeCount (bot w) < maxDailyTrades (bot w) ->
     answer env (now w) balanceCall = Resolved bal ->
     requiredBalance (config (bot w)) <= bal ->
     answer env (S (now w)) (configuredQuote (bot w)) = Rejected m ->
     fst (run env shouldTrade w) = Returned false /\
     In (Printed (ErrGettingQuote m)) (trace after) /\
     In (Printed (ErrShouldTrade m)) (trace after)) /\
  (forall bal r,
     tradeCount (bot w) < maxDailyTrades (bot w) ->
     answer env (now w) balanceCall = Resolved bal ->
     requiredBalance (config (bot w)) <= bal ->
     answer env (S (now w)) (configuredQuote (bot w)) = Resolved r ->
     code r <> "0" ->
     fst (run env shouldTrade w) = Returned false /\
     In (Printed (ErrGettingQuote ("API Error: " ++ msg r))) (trace after) /\
     In (Printed (ErrShouldTrade ("API Error: " ++ msg r))) (trace after)) /\
  (forall bal r,
     tradeCount (bot w) < maxDailyTrades (bot w) ->
     answer env (now w) balanceCall = Resolved bal ->
     requiredBalance (config (bot w)) <= bal ->
     answer env (S (now w)) (configuredQuote (bot w)) = Resolved r ->
     code r = "0" ->
     data r = [] ->
     fst (run env shouldTrade w) = Returned false /\
     In (Printed (ErrShouldTrade
           "Cannot read properties of undefined (reading 'toTokenAmount')"))
        (trace after)).
Proof.
  intros balanceCall after. unfold after. split; [|split; [|split; [|split]]].
  - destruct (Z.le_gt_cases (maxDailyTrades (bot w)) (tradeCount (bot w)))
      as [Hlim | Hlim].
    + rewrite (run_shouldTrade_at_limit env w Hlim). eexists. reflexivity.
    + rewrite (run_shouldTrade_below_limit env w Hlim), run_checkBalance.
      destruct (answer env (now w) _) as [bal|m];
        (destruct (_ <? _); [eexists; reflexivity|]);
        (destruct (run env (getSwapQuote _ _ _) _) as [[[q|]|m'] w2];
         eexists; reflexivity).
  - intros m Hlim Hreq Hans.
    pose proof (run_shouldTrade_short env w) as E. cbv zeta in E.
    fold balanceCall in E. rewrite Hans in E. rewrite (E Hlim Hreq).
    split; [reflexivity|]. cbn [snd]. split.
    + apply printed_before, printed_last.
    + apply printed_last.
  - intros bal m Hlim Hans Hbal Hq.
    pose proof (run_shouldTrade_funded env w bal) as E. cbv zeta in E.
    rewrite (E Hlim Hans Hbal), Hq. split; [reflexivity|]. cbn [snd]. split.
    + apply printed_before, printed_last.
    + apply printed_last.
  - intros bal r Hlim Hans Hbal Hq Hcode.
    pose proof (run_shouldTrade_funded env w bal) as E. cbv zeta in E.
    rewrite (E Hlim Hans Hbal), Hq.
    apply String.eqb_neq in Hcode. rewrite Hcode.
    split; [reflexivity|]. cbn [snd]. split.
    + apply printed_before, printed_last.
    + apply printed_last.
  - intros bal r Hlim Hans Hbal Hq Hcode Hdata.
    pose proof (run_shouldTrade_funded env w bal) as E. cbv zeta in E.
    rewrite (E Hlim Hans Hbal), Hq, Hcode, Hdata.
    split; [reflexivity|]. apply printed_last.
Qed.

Ltac side := first [vm_compute; reflexivity | cbn; lia | cbn; discriminate].

Lemma shouldTrade_never_throws_witness :
  fst (run balanceDownEnv shouldTrade (initial sampleBot)) = Returned false /\
  fst (run quoteDownEnv shouldTrade (initial sampleBot)) = Returned false /\
  fst (run quoteRefusedEnv shouldTrade (initial sampleBot)) = Returned false.
Proof.
  split; [|split].
  - destruct (shouldTrade_never_throws balanceDownEnv (initial sampleBot))
      as (_ & H & _ & _ & _).
    apply (H "fetch failed"); side.
  - destruct (shouldTrade_never_throws quoteDownEnv (initial sampleBot))
      as (_ & _ & H & _ & _).
    apply (H 500000000 "timeout of 5000ms exceeded"); side.
  - destruct (shouldTrade_never_throws quoteRefusedEnv (initial sampleBot))
      as (_ & _ & _ & H & _).
    apply (H 500000000
             {| code := "51000"; msg := "Parameter error"; data := [] |});
      side.
Defined.

(** C10.  Without [minExpectedAmount] in the configuration the threshold is
    0, and [shouldTrade] accepts every quote whose destination amount parses
    to a non-negative integer: with the limit not reached, a sufficient
    balance and a quote delivered, the decision is true. *)
Theorem shouldTrade_default_threshold env w bal r q v :
  minExpectedAmount (config (bot w)) = None ->
  tradeCount (bot w) < maxDailyTrades (bot w) ->
  answer env (now w) (GetBalance (publicKey (wallet (bot w)))) = Resolved bal ->
  requiredBalance (config (bot w)) <= bal ->
  answer env (S (now w)) (configuredQuote (bot w)) = Resolved r ->
  code r = "0" ->
  nth_error (data r) 0 = Some q ->
  JS.parseInt (toTokenAmount q) = Some v ->
  0 <= v ->
  minExpected (config (bot w)) = 0 /\
  fst (run env shouldTrade w) = Returned true.
Proof.
  intros Hmin Hlim Hans Hbal Hq Hcode Hdata Hparse Hv.
  assert (M : minExpected (config (bot w)) = 0).
  { unfold minExpected. rewrite Hmin. reflexivity. }
  split; [exact M|].
  pose proof (run_shouldTrade_funded env w bal) as E. cbv zeta in E.
  rewrite (E Hlim Hans Hbal), Hq, Hcode, Hdata, Hparse, M. cbn.
  apply Z.leb_le in Hv. rewrite Hv. reflexivity.
Qed.

Lemma shouldTrade_default_threshold_witness :
  minExpected noMinimum = 0 /\
  fst (run workingEnv shouldTrade (initial (newBot noMinimum sampleWallet)))
  = Returned true.
Proof.
  apply (shouldTrade_default_threshold workingEnv
           (initial (newBot noMinimum sampleWallet)) 500000000
           {| code := "0"; msg := ""; data := [sampleQuote] |}
           sampleQuote 2000000); side.
Defined.

(** ** The balance lookup *)

(** C6, as the code has it.  When the balance lookup is rejected,
    [checkBalance] does not throw: it prints the error and returns 0, the
    value it returns for an empty account.  [shouldTrade] compares that 0 with
    the required balance and, when the required balance is positive and the
    limit is not reached, returns false without requesting a quote. *)
Theorem checkBalance_failure_returns_zero env w m :
  let c := GetBalance (publicKey (wallet (bot w))) in
  answer env (now w) c = Rejected m ->
  run env checkBalance w =
    (Returned 0, emit (Printed (ErrCheckingBalance m)) (awaited env c w)) /\
  (tradeCount (bot w) < maxDailyTrades (bot w) ->
   0 < requiredBalance (config (bot w)) ->
   run env shouldTrade w =
     (Returned false,
      emit (Printed LogInsufficientBalance)
        (emit (Printed (ErrCheckingBalance m)) (awaited env c w))) /\
   calls (trace (snd (run env shouldTrade w))) = calls (trace w) ++ [c]).
Proof.
  intros c Hans. split.
  - rewrite run_checkBalance. fold c. rewrite Hans. reflexivity.
  - intros Hlim Hreq.
    pose proof (run_shouldTrade_short env w) as E. cbv zeta in E.
    fold c in E. rewrite Hans in E. rewrite (E Hlim Hreq).
    split; [reflexivity|]. cbn [snd]. rewrite !calls_printed.
    apply calls_awaited.
Qed.

Lemma checkBalance_failure_returns_zero_witness :
  answer balanceDownEnv (now (initial sampleBot))
    (GetBalance (publicKey (wallet (bot (initial sampleBot)))))
  = Rejected "fetch failed" /\
  fst (run balanceDownEnv checkBalance (initial sampleBot)) = Returned 0.
Proof.
  split; [reflexivity|].
  destruct (checkBalance_failure_returns_zero balanceDownEnv
              (initial sampleBot) "fetch failed") as [E _];
    [reflexivity|].
  rewrite E. reflexivity.
Defined.

(** C6, as stated, fails.  With a ledger that rejects the balance lookup,
    [checkBalance] throws nothing: it returns 0, exactly what it returns for
    an account that holds nothing, and [shouldTrade] then reports an
    insufficient balance. *)
Lemma checkBalance_failure_counterexample :
  answer balanceDownEnv (now (initial sampleBot))
    (GetBalance (publicKey (wallet sampleBot))) = Rejected "fetch failed" /\
  fst (run balanceDownEnv checkBalance (initial sampleBot)) = Returned 0 /\
  ~ (exists m,
       fst (run balanceDownEnv checkBalance (initial sampleBot)) = Thrown m) /\
  fst (run balanceDownEnv checkBalance (initial sampleBot)) =
  fst (run emptyAccountEnv checkBalance (initial sampleBot)) /\
  In (Printed LogInsufficientBalance)
    (trace (snd (run balanceDownEnv shouldTrade (initial sampleBot)))).
Proof.
  split; [reflexivity|]. split; [reflexivity|]. split; [|split].
  - intros [m H]. discriminate H.
  - reflexivity.
  - vm_compute. auto 10.
Qed.

(** ** The quote request *)

(** C9, as the code has it.  [getSwapQuote] does not look at the amount: for
    every amount it awaits exactly one request, which carries the decimal
    string of the amount, and its result is decided by the answer alone:
    [data[0]] on code ['0'], an error otherwise. *)
Theorem getSwapQuote_sends_any_amount env w fromT toT amt :
  let c := quoteRequest (bot w) fromT toT amt in
  let res := run env (getSwapQuote fromT toT amt) w in
  c = GetQuote fromT toT (JS.toString amt)
        (JS.or_str (slippage (config (bot w))) "1") /\
  calls (trace (snd res)) = calls (trace w) ++ [c] /\
  (forall r, answer env (now w) c = Resolved r -> code r = "0" ->
             fst res = Returned (nth_error (data r) 0)) /\
  (forall r, answer env (now w) c = Resolved r -> code r <> "0" ->
             fst res = Thrown ("API Error: " ++ msg r)) /\
  (forall m, answer env (now w) c = Rejected m -> fst res = Thrown m).
Proof.
  intros c res. unfold res. rewrite run_getSwapQuote. fold c.
  split; [reflexivity|]. split; [|split; [|split]].
  - destruct (answer env (now w) c) as [r|m]; [destruct (String.eqb _ _)|];
      cbn [snd]; rewrite ?calls_printed; apply calls_awaited.
  - intros r -> Hc. rewrite Hc. reflexivity.
  - intros r -> Hc. apply String.eqb_neq in Hc. rewrite Hc. reflexivity.
  - intros m ->. reflexivity.
Qed.

Lemma getSwapQuote_sends_any_amount_witness :
  calls (trace (snd (run workingEnv (getSwapQuote "SOL" "PUMP" (-5))
                       (initial sampleBot))))
  = [GetQuote "SOL" "PUMP" "-5" "2"] /\
  fst (run workingEnv (getSwapQuote "SOL" "PUMP" (-5)) (initial sampleBot))
  = Returned (Some sampleQuote).
Proof.
  destruct (getSwapQuote_sends_any_amount workingEnv (initial sampleBot)
              "SOL" "PUMP" (-5)) as (_ & Hcalls & Hok & _).
  split.
  - exact Hcalls.
  - apply (Hok {| code := "0"; msg := ""; data := [sampleQuote] |});
      reflexivity.
Defined.

(** C9, as stated, fails.  Asked to quote the amounts 0 and -5,
    [getSwapQuote] throws nothing: it sends the request with that amount to
    the aggregator and returns the quote the aggregator gives. *)
Lemma getSwapQuote_validation_counterexample :
  run workingEnv (getSwapQuote "SOL" "PUMP" 0) (initial sampleBot) =
    (Returned (Some sampleQuote),
     awaited workingEnv (GetQuote "SOL" "PUMP" "0" "2") (initial sampleBot)) /\
  calls (trace (snd (run workingEnv (getSwapQuote "SOL" "PUMP" 0)
                       (initial sampleBot))))
  = [GetQuote "SOL" "PUMP" "0" "2"] /\
  fst (run workingEnv (getSwapQuote "SOL" "PUMP" (-5)) (initial sampleBot))
  = Returned (Some sampleQuote) /\
  calls (trace (snd (run workingEnv (getSwapQuote "SOL" "PUMP" (-5))
                       (initial sampleBot))))
  = [GetQuote "SOL" "PUMP" "-5" "2"].
Proof. repeat split. Qed.

(** ** A trade attempt *)

Arguments shouldTrade : simpl never.
Arguments performSwap : simpl never.
Arguments sleep : simpl never.

(** What [performSwap] does, by the outcomes of the quote and of the swap. *)
Lemma run_performSwap env w :
  let w0 := emit (Printed LogStartingSwap) w in
  run env performSwap w =
  match run env (getSwapQuote (fromToken (config (bot w0)))
                   (toToken (config (bot w0))) (amount (config (bot w0))))
          w0 with
  | (Returned (Some q), w1) =>
      match run env (executeSwap (Some q))
              (emit (Printed (LogSwapping (JS.parseInt (toTokenAmount q))))
                 w1) with
      | (Returned signature, w2) =>
          (Returned signature,
           emit (Printed (LogTotalTrades (tradeCount (bot w2) + 1)
                            (maxDailyTrades (bot w2))))
             (emit (Printed (LogSwapCompleted signature))
                (write incrTradeCount w2)))
      | (Thrown m, w2) => (Thrown m, emit (Printed (ErrSwapFailed m)) w2)
      end
  | (Returned None, w1) =>
      (Thrown "Cannot read properties of undefined (reading 'toTokenAmount')",
       emit (Printed (ErrSwapFailed
         "Cannot read properties of undefined (reading 'toTokenAmount')")) w1)
  | (Thrown m, w1) => (Thrown m, emit (Printed (ErrSwapFailed m)) w1)
  end.
Proof.
  intro w0. unfold performSwap.
  rewrite run_tryCatch, run_bind. unfold print at 1.
  rewrite run_print, run_ret. fold w0.
  rewrite run_bind. unfold this at 1. rewrite run_read, run_ret.
  rewrite run_bind.
  destruct (run env (getSwapQuote _ _ _) w0) as [[[q|]|m] w1];
    [|reflexivity|reflexivity].
  rewrite run_bind. cbn [property]. rewrite run_ret.
  rewrite run_bind. unfold print at 1. rewrite run_print, run_ret.
  rewrite run_bind.
  destruct (run env (executeSwap (Some q)) _) as [[signature|m] w2];
    reflexivity.
Qed.

(** A swap that returns has incremented the counter once, as its only write
    of it; a swap that throws has not written it. *)
Lemma performSwap_effect env w o w' :
  run env performSwap w = (o, w') ->
  match o with
  | Returned _ =>
      exists w2, calm w w2 /\
                 bot w' = incrTradeCount (bot w2) /\
                 past w' = past w2 ++ [bot w2]
  | Thrown _ => calm w w'
  end.
Proof.
  rewrite run_performSwap. cbv zeta.
  destruct (run env (getSwapQuote _ _ _) _) as [[[q|]|m] w1] eqn:Eq.
  - apply quiet_calm in Eq; [|apply quiet_getSwapQuote].
    destruct (run env (executeSwap (Some q)) _) as [[signature|m] w2] eqn:Ex;
      apply quiet_calm in Ex; try apply quiet_executeSwap;
      intro E; injection E as <- <-.
    + exists w2. split; [|split; reflexivity].
      eapply calm_trans; [apply calm_emit|].
      eapply calm_trans; [exact Eq|].
      eapply calm_trans; [apply calm_emit|]. exact Ex.
    + eapply calm_trans; [apply calm_emit|].
      eapply calm_trans; [exact Eq|].
      eapply calm_trans; [apply calm_emit|].
      eapply calm_trans; [exact Ex|]. apply calm_emit.
  - apply quiet_calm in Eq; [|apply quiet_getSwapQuote].
    intro E; injection E as <- <-.
    eapply calm_trans; [apply calm_emit|].
    eapply calm_trans; [exact Eq|]. apply calm_emit.
  - apply quiet_calm in Eq; [|apply quiet_getSwapQuote].
    intro E; injection E as <- <-.
    eapply calm_trans; [apply calm_emit|].
    eapply calm_trans; [exact Eq|]. apply calm_emit.
Qed.

(** What one tick does, by the decision and the outcome of the swap. *)
Lemma run_tick env w :
  run env tick w =
  match run env shouldTrade (emit (Printed LogChecking) w) with
  | (Returned true, w1) =>
      match run env performSwap w1 with
      | (Returned _, w2) =>
          let w3 := slept env (tradeCooldown (config (bot w2)))
                      (emit (Printed (LogCooldown
                                        (tradeCooldown (config (bot w2)))))
                         w2) in
          (Returned tt, slept env (checkInterval (config (bot w3))) w3)
      | (Thrown m, w2) =>
          (Returned tt,
           slept env retryDelay
             (emit (Printed LogRetrying) (emit (Printed (ErrMainLoop m)) w2)))
      end
  | (Returned false, w1) =>
      let w2 := emit (Printed LogNotMet) w1 in
      (Returned tt, slept env (checkInterval (config (bot w2))) w2)
  | (Thrown m, w1) =>
      (Returned tt,
       slept env retryDelay
         (emit (Printed LogRetrying) (emit (Printed (ErrMainLoop m)) w1)))
  end.
Proof.
  unfold tick. rewrite run_tryCatch, run_bind. unfold print at 1.
  rewrite run_print, run_ret. rewrite run_bind.
  destruct (run env shouldTrade _) as [[[|]|m] w1].
  - rewrite run_bind, run_bind.
    destruct (run env performSwap w1) as [[signature|m] w2].
    + rewrite run_bind. unfold this at 1. rewrite run_read, run_ret.
      rewrite run_bind. unfold print at 1. rewrite run_print, run_ret.
      rewrite run_sleep. rewrite run_bind. unfold this at 1.
      rewrite run_read, run_ret, run_sleep. reflexivity.
    + rewrite run_bind. unfold print at 1. rewrite run_print, run_ret.
      rewrite run_bind. unfold print at 1. rewrite run_print, run_ret.
      rewrite run_sleep. reflexivity.
  - rewrite run_bind. unfold print at 1. rewrite run_print, run_ret.
    rewrite run_bind. unfold this at 1.
    rewrite run_read, run_ret, run_sleep. reflexivity.
  - rewrite run_bind. unfold print at 1. rewrite run_print, run_ret.
    rewrite run_bind. unfold print at 1. rewrite run_print, run_ret.
    rewrite run_sleep. reflexivity.
Qed.

Lemma calm_tradeCount w w' : calm w w' -> tradeCount (bot w') = tradeCount (bot w).
Proof. intros (l & _ & _ & H & _). exact H. Qed.

Lemma calm_maxDailyTrades w w' :
  calm w w' -> maxDailyTrades (bot w') = maxDailyTrades (bot w).
Proof. intros (l & _ & _ & _ & H & _). exact H. Qed.

Lemma calm_config w w' : calm w w' -> config (bot w') = config (bot w).
Proof. intros (l & _ & _ & _ & _ & H & _). exact H. Qed.

(** The counter after [performSwap]: one more when it returned, the same when
    it threw; the configuration and the limit are the same. *)
Lemma performSwap_counts env w o w' :
  run env performSwap w = (o, w') ->
  tradeCount (bot w') =
    tradeCount (bot w) + match o with Returned _ => 1 | Thrown _ => 0 end /\
  maxDailyTrades (bot w') = maxDailyTrades (bot w) /\
  config (bot w') = config (bot w).
Proof.
  intro E. apply performSwap_effect in E. destruct o as [signature|m].
  - destruct E as (w2 & C & -> & _). cbn.
    rewrite (calm_tradeCount _ _ C), (calm_maxDailyTrades _ _ C),
      (calm_config _ _ C). auto.
  - rewrite (calm_tradeCount _ _ E), (calm_maxDailyTrades _ _ E),
      (calm_config _ _ E). rewrite Z.add_0_r. auto.
Qed.

(** C4.  In a tick whose decision is true: if the swap returns, the counter
    is one more than before, and the tick goes on with the sleep of the
    cooldown and then the sleep of the check interval; if the swap throws, the
    counter is what it was, and the tick ends with one sleep of the fixed
    retry delay of 30000 ms, which is not taken from the configuration (and
    differs from the cooldown of the repository's configuration). *)
Theorem trade_attempt_bookkeeping env w w1 :
  run env shouldTrade (emit (Printed LogChecking) w) = (Returned true, w1) ->
  (forall signature w2,
     run env performSwap w1 = (Returned signature, w2) ->
     tradeCount (bot w2) = tradeCount (bot w) + 1 /\
     tradeCount (bot (snd (run env tick w))) = tradeCount (bot w) + 1 /\
     calls (trace (snd (run env tick w))) =
       calls (trace w2) ++ [SetTimeout (tradeCooldown (config (bot w)));
                            SetTimeout (checkInterval (config (bot w)))]) /\
  (forall m w2,
     run env performSwap w1 = (Thrown m, w2) ->
     tradeCount (bot w2) = tradeCount (bot w) /\
     tradeCount (bot (snd (run env tick w))) = tradeCount (bot w) /\
     calls (trace (snd (run env tick w))) =
       calls (trace w2) ++ [SetTimeout retryDelay]) /\
  retryDelay = 30000 /\
  retryDelay <> tradeCooldown botConfig.
Proof.
  intro Hd.
  assert (C1 : calm w w1).
  { eapply calm_trans; [apply calm_emit|].
    eapply quiet_calm; [apply quiet_shouldTrade | exact Hd]. }
  split; [|split; [|split; [reflexivity | discriminate]]].
  - intros signature w2 Hs.
    destruct (performSwap_counts _ _ _ _ Hs) as (T2 & _ & G2).
    rewrite (calm_tradeCount _ _ C1) in T2.
    rewrite (calm_config _ _ C1) in G2.
    rewrite run_tick, Hd, Hs. cbv zeta. cbn [snd].
    split; [exact T2|]. split.
    + rewrite !(calm_tradeCount _ _ (calm_slept _ _ _)). exact T2.
    + rewrite calls_slept. rewrite (calm_config _ _ (calm_slept _ _ _)).
      rewrite calls_slept, calls_printed. cbn [bot emit]. rewrite G2.
      rewrite <- app_assoc. reflexivity.
  - intros m w2 Hs.
    destruct (performSwap_counts _ _ _ _ Hs) as (T2 & _ & _).
    rewrite (calm_tradeCount _ _ C1), Z.add_0_r in T2.
    rewrite run_tick, Hd, Hs. cbn [snd].
    split; [exact T2|]. split.
    + rewrite (calm_tradeCount _ _ (calm_slept _ _ _)). exact T2.
    + rewrite calls_slept, !calls_printed. reflexivity.
Qed.

Lemma trade_attempt_bookkeeping_witness :
  tradeCount (bot (snd (run workingEnv tick (initial sampleBot)))) = 1 /\
  tradeCount (bot (snd (run swapFailsEnv tick (initial sampleBot)))) = 0.
Proof.
  split.
  - destruct (trade_attempt_bookkeeping workingEnv (initial sampleBot)
                (snd (run workingEnv shouldTrade
                        (emit (Printed LogChecking) (initial sampleBot)))))
      as (H & _); [vm_compute; reflexivity|].
    destruct (H "5VERv8"
                (snd (run workingEnv performSwap
                        (snd (run workingEnv shouldTrade
                                (emit (Printed LogChecking)
                                   (initial sampleBot)))))))
      as (_ & T & _); [vm_compute; reflexivity|].
    exact T.
  - destruct (trade_attempt_bookkeeping swapFailsEnv (initial sampleBot)
                (snd (run swapFailsEnv shouldTrade
                        (emit (Printed LogChecking) (initial sampleBot)))))
      as (_ & H & _); [vm_compute; reflexivity|].
    destruct (H "Transaction failed: InstructionError"
                (snd (run swapFailsEnv performSwap
                        (snd (run swapFailsEnv shouldTrade
                                (emit (Printed LogChecking)
                                   (initial sampleBot)))))))
      as (_ & T & _); [vm_compute; reflexivity|].
    exact T.
Defined.

(** ** The limit on the number of trades *)

Lemma stable_withinLimit b b' : stable b b' -> withinLimit b -> withinLimit b'.
Proof.
  intros (T & M & _) H. unfold withinLimit in *. rewrite T, M. exact H.
Qed.

Lemma visited_last w : In (bot w) (visited w).
Proof. unfold visited. apply in_or_app. right. left. reflexivity. Qed.

Lemma calm_withinLimit w w' :
  calm w w' ->
  Forall withinLimit (visited w) -> Forall withinLimit (visited w').
Proof.
  intros (l & P & F & S) H.
  assert (Hb : withinLimit (bot w)).
  { rewrite Forall_forall in H. apply H, visited_last. }
  unfold visited in *. rewrite P.
  apply Forall_app in H. destruct H as [Hp _].
  repeat (apply Forall_app; split); [exact Hp | |].
  - eapply Forall_impl; [|exact F].
    intros b Sb. exact (stable_withinLimit _ _ Sb Hb).
  - constructor; [|constructor]. exact (stable_withinLimit _ _ S Hb).
Qed.

(** A true decision was taken below the limit. *)
Lemma shouldTrade_true_below_limit env w w1 :
  run env shouldTrade w = (Returned true, w1) ->
  tradeCount (bot w) < maxDailyTrades (bot w).
Proof.
  intro E.
  destruct (Z.le_gt_cases (maxDailyTrades (bot w)) (tradeCount (bot w)))
    as [Hlim | Hlim]; [|lia].
  rewrite (run_shouldTrade_at_limit env w Hlim) in E. discriminate E.
Qed.

(** A swap begun below the limit keeps the object within the limit. *)
Lemma performSwap_withinLimit env w o w' :
  run env performSwap w = (o, w') ->
  tradeCount (bot w) < maxDailyTrades (bot w) ->
  Forall withinLimit (visited w) -> Forall withinLimit (visited w').
Proof.
  intros E Hlim H. apply performSwap_effect in E.
  destruct o as [signature|m]; [|exact (calm_withinLimit _ _ E H)].
  destruct E as (w2 & C & Eb & Ep).
  pose proof (calm_withinLimit _ _ C H) as H2.
  unfold visited. rewrite Ep, Eb. fold (visited w2).
  apply Forall_app. split; [exact H2|].
  constructor; [|constructor]. unfold withinLimit. cbn.
  rewrite (calm_tradeCount _ _ C), (calm_maxDailyTrades _ _ C). lia.
Qed.

(** One tick keeps the object within the limit. *)
Lemma tick_withinLimit env w :
  Forall withinLimit (visited w) ->
  Forall withinLimit (visited (snd (run env tick w))).
Proof.
  intro H. rewrite run_tick.
  pose proof (calm_emit (Printed LogChecking) w) as C0.
  destruct (run env shouldTrade _) as [[[|]|m] w1] eqn:Hd;
    pose proof (quiet_calm env _ quiet_shouldTrade _ _ _ Hd) as C1;
    pose proof (calm_withinLimit _ _ (calm_trans _ _ _ C0 C1) H) as H1.
  - apply shouldTrade_true_below_limit in Hd. cbn [bot emit] in Hd.
    rewrite <- (calm_tradeCount _ _ (calm_trans _ _ _ C0 C1)),
      <- (calm_maxDailyTrades _ _ (calm_trans _ _ _ C0 C1)) in Hd.
    destruct (run env performSwap w1) as [[signature|m] w2] eqn:Hs;
      pose proof (performSwap_withinLimit _ _ _ _ Hs Hd H1) as H2;
      cbv zeta; cbn [snd].
    + eapply calm_withinLimit; [apply calm_slept|].
      eapply calm_withinLimit; [apply calm_slept|].
      eapply calm_withinLimit; [apply calm_emit|]. exact H2.
    + eapply calm_withinLimit; [apply calm_slept|].
      eapply calm_withinLimit; [apply calm_emit|].
      eapply calm_withinLimit; [apply calm_emit|]. exact H2.
  - cbv zeta; cbn [snd].
    eapply calm_withinLimit; [apply calm_slept|].
    eapply calm_withinLimit; [apply calm_emit|]. exact H1.
  - cbn [snd].
    eapply calm_withinLimit; [apply calm_slept|].
    eapply calm_withinLimit; [apply calm_emit|].
    eapply calm_withinLimit; [apply calm_emit|]. exact H1.
Qed.

(** A tick always returns. *)
Lemma tick_returns env w : fst (run env tick w) = Returned tt.
Proof.
  rewrite run_tick.
  destruct (run env shouldTrade _) as [[[|]|m] w1]; [|reflexivity|reflexivity].
  destruct (run env performSwap w1) as [[signature|m] w2]; reflexivity.
Qed.

Arguments tick : simpl never.

(** The loop, one tick at a time. *)
Lemma run_loop_S env fuel w :
  run env (loop (S fuel)) w =
  if isRunning (bot w)
  then run env (loop fuel) (snd (run env tick w))
  else (Returned Finished, w).
Proof.
  cbn [loop]. rewrite run_bind. unfold this at 1. rewrite run_read, run_ret.
  destruct (isRunning (bot w)); [|reflexivity].
  rewrite run_bind. pose proof (tick_returns env w) as R.
  destruct (run env tick w) as [o w1]. cbn in R. rewrite R. reflexivity.
Qed.

Lemma loop_withinLimit env fuel : forall w,
  Forall withinLimit (visited w) ->
  Forall withinLimit (visited (snd (run env (loop fuel) w))).
Proof.
  induction fuel as [|fuel IH]; intros w H.
  - exact H.
  - rewrite run_loop_S. destruct (isRunning (bot w)); [|exact H].
    apply IH, tick_withinLimit, H.
Qed.

Lemma run_start env fuel w :
  run env (start fuel) w =
  run env (loop fuel) (write (setRunning true) (emit (Printed LogStarting) w)).
Proof.
  unfold start. rewrite run_bind. unfold print at 1.
  rewrite run_print, run_ret. rewrite run_bind. unfold modify at 1.
  rewrite run_modify, run_ret. reflexivity.
Qed.

Lemma start_withinLimit env fuel w :
  Forall withinLimit (visited w) ->
  Forall withinLimit (visited (snd (run env (start fuel) w))).
Proof.
  intro H. rewrite run_start. apply loop_withinLimit.
  eapply calm_withinLimit; [|exact H].
  eapply calm_trans; [apply calm_emit|]. apply calm_write. repeat split.
Qed.

Lemma newBot_withinLimit cfg wl : limitIsCount cfg -> withinLimit (newBot cfg wl).
Proof.
  unfold limitIsCount, withinLimit, newBot, JS.or_num. cbn.
  destruct (cfgMaxDailyTrades cfg) as [m|]; [|lia].
  destruct (Z.eqb_spec m 0); lia.
Qed.

(** C1.  In a run of [start()] on a newly constructed bot whose configured
    limit is absent or a count, of any number of ticks and in any environment
    (whatever the services answer and whenever [stop()] is called), every
    value the object takes, from its construction to the end of the run,
    has [tradeCount <= maxDailyTrades]. *)
Theorem tradeCount_never_exceeds_limit env fuel cfg wl :
  limitIsCount cfg ->
  Forall (fun b => tradeCount b <= maxDailyTrades b)
    (visited (snd (run env (start fuel) (initial (newBot cfg wl))))).
Proof.
  intro H. apply start_withinLimit.
  constructor; [|constructor]. apply newBot_withinLimit, H.
Qed.

Lemma tradeCount_never_exceeds_limit_witness :
  limitIsCount botConfig /\
  Forall (fun b => tradeCount b <= maxDailyTrades b)
    (visited (snd (run workingEnv (start 30) (initial sampleBot)))).
Proof.
  split.
  - cbn. lia.
  - apply (tradeCount_never_exceeds_limit workingEnv 30 botConfig sampleWallet).
    cbn. lia.
Defined.

(** ** Stopping *)

Lemma interrupt_stops env n w :
  stopDuring env n = true -> isRunning (bot (interrupt env n w)) = false.
Proof. unfold interrupt. intros ->. reflexivity. Qed.

(** In a program that never sets the flag, a flag that is cleared, before the
    program or during one of its suspensions, is still cleared at its end. *)
Lemma stop_sticks {A : Type} env (p : prog A) :
  writes staysStopped p ->
  forall w,
    (now w <= now (snd (run env p w)))%nat /\
    (isRunning (bot w) = false ->
     isRunning (bot (snd (run env p w))) = false) /\
    (forall n, (now w <= n < now (snd (run env p w)))%nat ->
               stopDuring env n = true ->
               isRunning (bot (snd (run env p w))) = false).
Proof.
  induction p as [a|m|k IH|g k IH|l k IH|c k IH]; intros Hq w; cbn in Hq.
  - rewrite run_ret. cbn. split; [lia|]. split; [auto|]. intros n Hn. lia.
  - rewrite run_throw. cbn. split; [lia|]. split; [auto|]. intros n Hn. lia.
  - rewrite run_read. apply IH, Hq.
  - rewrite run_modify. destruct Hq as [Hg Hk].
    destruct (IH Hk (write g w)) as (L & S & D). cbn in L, S, D.
    split; [exact L|]. split; [|exact D].
    intro H. apply S, Hg, H.
  - rewrite run_print. destruct (IH Hq (emit (Printed l) w)) as (L & S & D).
    cbn in L, S, D. auto.
  - rewrite run_await.
    destruct (IH _ (Hq (answer env (now w) c))
                (advance (interrupt env (now w) (emit (Called c) w))))
      as (L & S & D).
    cbn [now advance bot] in L, S, D. rewrite now_interrupt in L, D.
    cbn [now emit] in L, D.
    split; [lia|]. split.
    + intro H. apply S, isRunning_interrupt_false. exact H.
    + intros n Hn Hs.
      destruct (Nat.eq_dec n (now w)) as [-> | Hne].
      * apply S, interrupt_stops, Hs.
      * apply (D n); [lia | exact Hs].
Qed.

(** C7, as the code has it.  The flag is read at the start of every tick and
    nowhere else: when it is cleared there, the loop ends at once, with no
    event and no write; and when [stop()] is called during any suspension of
    a tick, the loop ends when that tick is over, so no trade is attempted in
    a later tick. *)
Theorem stop_checked_before_each_tick env fuel w :
  (isRunning (bot w) = false ->
   run env (loop (S fuel)) w = (Returned Finished, w)) /\
  (forall n,
     isRunning (bot w) = true ->
     (now w <= n < now (snd (run env tick w)))%nat ->
     stopDuring env n = true ->
     run env (loop (S (S fuel))) w =
       (Returned Finished, snd (run env tick w))).
Proof.
  split.
  - intro H. rewrite run_loop_S, H. reflexivity.
  - intros n Hr Hn Hs.
    assert (Q : writes staysStopped tick).
    { apply writes_tick. intros b H. exact H. }
    destruct (stop_sticks env tick Q w) as (_ & _ & D).
    rewrite (run_loop_S env (S fuel)), Hr, run_loop_S, (D n Hn Hs).
    reflexivity.
Qed.

Lemma stop_checked_before_each_tick_witness :
  run workingEnv (loop 1) (initial sampleBot)
    = (Returned Finished, initial sampleBot) /\
  run stopWhileEvaluating (loop 2) (initial (setRunning true sampleBot))
    = (Returned Finished,
       snd (run stopWhileEvaluating tick
              (initial (setRunning true sampleBot)))).
Proof.
  split.
  - apply (stop_checked_before_each_tick workingEnv 0 (initial sampleBot)).
    reflexivity.
  - apply (stop_checked_before_each_tick stopWhileEvaluating 0
             (initial (setRunning true sampleBot))) with (n := 0%nat).
    + reflexivity.
    + vm_compute. split; repeat constructor.
    + reflexivity.
Defined.

(** C7, as stated, fails.  [stop()] is called while the first balance lookup
    is pending, that is during the evaluation of the first tick; the tick
    nevertheless goes on to the swap, which is sent and confirmed, and the
    loop ends only afterwards. *)
Lemma stop_during_evaluation_counterexample :
  stopDuring stopWhileEvaluating 0 = true /\
  run stopWhileEvaluating (start 2) (initial sampleBot) =
  (Returned Finished,
   {| bot := setRunning false (incrTradeCount (setRunning true sampleBot));
      now := 8;
      trace :=
        [Printed LogStarting; Printed LogChecking;
         Called (GetBalance "wallet"); Printed LogStopping;
         Printed (LogBalance 500000000);
         Called (GetQuote (fromToken botConfig) (toToken botConfig)
                   "100000000" "2");
         Printed (LogCurrentQuote (Some 2000000));
         Printed LogStartingSwap;
         Called (GetQuote (fromToken botConfig) (toToken botConfig)
                   "100000000" "2");
         Printed (LogSwapping (Some 2000000));
         Called (PostSwap (fromToken botConfig) (toToken botConfig)
                   "100000000" "2" "wallet");
         Called (SendRawTransaction "AQID");
         Printed (LogTransactionSent "5VERv8");
         Called (ConfirmTransaction "5VERv8");
         Printed (LogSwapCompleted "5VERv8"); Printed (LogTotalTrades 1 20);
         Printed (LogCooldown 300000); Called (SetTimeout 300000);
         Called (SetTimeout 60000)];
      past := [sampleBot; setRunning true sampleBot;
               setRunning false (setRunning true sampleBot)] |}) /\
  swapAfterStop
    (trace (snd (run stopWhileEvaluating (start 2) (initial sampleBot))))
  = true /\
  tradeCount
    (bot (snd (run stopWhileEvaluating (start 2) (initial sampleBot)))) = 1.
Proof.
  split; [reflexivity|]. split; [vm_compute; reflexivity|].
  split; vm_compute; reflexivity.
Qed.

(** ** Confirmation of a swap *)

(** Once the transaction is sent, [executeSwap] awaits
    [confirmTransaction] of the ledger client once: it returns the signature
    when the client reports no error (or a falsy one), and it prints and
    rethrows what the client reports or throws otherwise.  How long the client waits before it
    settles is the client's business; [executeSwap] has no loop and no bound
    of its own. *)
Lemma run_executeSwap_confirmation env w q r tx raw signature :
  let post := PostSwap (fromTokenAddress q) (toTokenAddress q)
                (fromTokenAmount q) (JS.or_str (slippage (config (bot w))) "1")
                (publicKey (wallet (bot w))) in
  let w3 := awaited env (ConfirmTransaction signature)
              (emit (Printed (LogTransactionSent signature))
                 (awaited env (SendRawTransaction raw) (awaited env post w))) in
  answer env (now w) post = Resolved r ->
  code r = "0" ->
  nth_error (data r) 0 = Some tx ->
  signTransaction (wallet (bot w)) tx = Resolved raw ->
  answer env (S (now w)) (SendRawTransaction raw) = Resolved signature ->
  run env (executeSwap (Some q)) w =
  match answer env (S (S (now w))) (ConfirmTransaction signature) with
  | Resolved None => (Returned signature, w3)
  | Resolved (Some err) =>
      if String.eqb err ""
      then (Returned signature, w3)
      else
        (Thrown ("Transaction failed: " ++ err),
         emit (Printed (ErrExecutingSwap ("Transaction failed: " ++ err)))
           w3)
  | Rejected m => (Thrown m, emit (Printed (ErrExecutingSwap m)) w3)
  end.
Proof.
  intros post w3 Hpost Hcode Hdata Hsign Hsend.
  destruct (data r) as [|tx' rest] eqn:D; [discriminate Hdata|].
  injection Hdata as ->.
  unfold executeSwap, run. cbn -[awaited].
  fold post. rewrite Hpost. cbn. rewrite Hcode. cbn. rewrite D. cbn.
  rewrite wallet_interrupt. cbn. rewrite Hsign. cbn.
  rewrite now_interrupt. cbn. rewrite Hsend. cbn.
  unfold w3, awaited. cbn. rewrite !now_interrupt. cbn.
  rewrite !now_interrupt. cbn.
  destruct (answer env (S (S (now w))) (ConfirmTransaction signature))
    as [[[|a err]|]|m]; reflexivity.
Qed.

(** * Further properties of the code *)

(** ** Numbers and their decimal strings *)

Lemma read_digits_acc d acc :
  JS.read_digits 10 (NilEmpty.string_of_uint d) (Some (Zpos acc)) =
  Some (Zpos (Pos.of_uint_acc d acc)).
Proof.
  revert acc. induction d; intro acc;
    cbn [NilEmpty.string_of_uint JS.read_digits Pos.of_uint_acc];
    [reflexivity | ..];
    (change (JS.digit_value 10 _) with (Some 0) ||
     change (JS.digit_value 10 _) with (Some 1) ||
     change (JS.digit_value 10 _) with (Some 2) ||
     change (JS.digit_value 10 _) with (Some 3) ||
     change (JS.digit_value 10 _) with (Some 4) ||
     change (JS.digit_value 10 _) with (Some 5) ||
     change (JS.digit_value 10 _) with (Some 6) ||
     change (JS.digit_value 10 _) with (Some 7) ||
     change (JS.digit_value 10 _) with (Some 8) ||
     change (JS.digit_value 10 _) with (Some 9)); cbv iota beta.
  all: try (rewrite <- IHd; f_equal; f_equal; lia).
Qed.

Lemma read_digits_zero d :
  JS.read_digits 10 (NilEmpty.string_of_uint d) (Some 0) =
  Some (Z.of_N (Pos.of_uint d)).
Proof.
  induction d; cbn [NilEmpty.string_of_uint JS.read_digits Pos.of_uint];
    [reflexivity | exact IHd | ..];
    apply (read_digits_acc d).
Qed.

Lemma read_digits_uint d :
  d <> Decimal.Nil ->
  JS.read_digits 10 (NilEmpty.string_of_uint d) None =
  Some (Z.of_N (Pos.of_uint d)).
Proof.
  destruct d; intro H; [contradiction | apply (read_digits_zero d) | ..];
    apply (read_digits_acc d).
Qed.

Lemma parseInt_uint d :
  d <> Decimal.Nil ->
  JS.parseInt (NilEmpty.string_of_uint d) = Some (Z.of_N (Pos.of_uint d)).
Proof.
  intro H. rewrite <- (read_digits_uint d H).
  transitivity (match JS.read_digits 10 (NilEmpty.string_of_uint d) None with
                | Some v => Some v
                | None => None
                end).
  - destruct d as [|d|d|d|d|d|d|d|d|d|d]; [contradiction | ..];
      destruct d; reflexivity.
  - destruct (JS.read_digits _ _ _); reflexivity.
Qed.

Lemma parseInt_neg_uint d :
  d <> Decimal.Nil ->
  JS.parseInt (String "-" (NilEmpty.string_of_uint d)) =
  Some (- Z.of_N (Pos.of_uint d)).
Proof.
  intro H.
  transitivity (match JS.read_digits 10 (NilEmpty.string_of_uint d) None with
                | Some v => Some (- v)
                | None => None
                end).
  - destruct d as [|d|d|d|d|d|d|d|d|d|d]; [contradiction | ..];
      destruct d; reflexivity.
  - rewrite (read_digits_uint d H). reflexivity.
Qed.

Lemma nilzero_uint d :
  d <> Decimal.Nil -> NilZero.string_of_uint d = NilEmpty.string_of_uint d.
Proof. destruct d; [contradiction | reflexivity ..]. Qed.

Lemma parseInt_toString z : JS.parseInt (JS.toString z) = Some z.
Proof.
  destruct z as [|p|p]; [reflexivity | |]; unfold JS.toString;
    cbn [Z.to_int NilZero.string_of_int];
    pose proof (Unsigned.to_uint_nonnil p) as H; rewrite (nilzero_uint _ H).
  - rewrite (parseInt_uint _ H), Unsigned.of_to. reflexivity.
  - rewrite (parseInt_neg_uint _ H), Unsigned.of_to. reflexivity.
Qed.

(** X1.  The amount of a quote request is written so that it reads back:
    for every amount that is a safe integer, the request of [getSwapQuote]
    carries a string that [parseInt] turns into that amount, so different
    amounts give different requests. *)
Theorem quoteRequest_amount_reads_back b fromT toT amt :
  safeInteger amt ->
  exists s slip,
    quoteRequest b fromT toT amt = GetQuote fromT toT s slip /\
    JS.parseInt s = Some amt /\
    forall amt',
      safeInteger amt' ->
      quoteRequest b fromT toT amt' = quoteRequest b fromT toT amt ->
      amt' = amt.
Proof.
  intros _.
  exists (JS.toString amt), (JS.or_str (slippage (config b)) "1").
  split; [reflexivity|]. split; [apply parseInt_toString|].
  intros amt' _ E. unfold quoteRequest in E. injection E as E.
  pose proof (parseInt_toString amt') as P. rewrite E, parseInt_toString in P.
  injection P as P. symmetry. exact P.
Qed.

Lemma quoteRequest_amount_reads_back_witness :
  safeInteger (amount botConfig) /\
  quoteRequest sampleBot "SOL" "PUMP" (amount botConfig)
    = GetQuote "SOL" "PUMP" "100000000" "2" /\
  JS.parseInt "100000000" = Some (amount botConfig).
Proof.
  split; [cbv; discriminate|].
  destruct (quoteRequest_amount_reads_back sampleBot "SOL" "PUMP"
              (amount botConfig)) as (s0 & slip & E & P & _);
    [cbv; discriminate|].
  split; reflexivity.
Defined.

(** ** More on the decision *)

(** X2.  A true decision is never taken on an unknown state.  When the
    required balance is positive and [shouldTrade] returns true, the limit
    was not reached, the ledger did report a balance and it was sufficient,
    the aggregator did deliver a quote with code ['0'], its amount parsed to
    a number at or above the threshold, and the calls made were the balance
    lookup and then the quote request, nothing else.  The amounts of the
    configuration and the balance reported are safe integers and the amount
    quoted is an exact number, so that the arithmetic of the code, made on
    doubles, is the exact one. *)
Theorem shouldTrade_true_sound env w w1 :
  exactAmounts (config (bot w)) ->
  (forall bal,
     answer env (now w) (GetBalance (publicKey (wallet (bot w))))
       = Resolved bal ->
     safeInteger bal) ->
  (forall r q,
     answer env (S (now w)) (configuredQuote (bot w)) = Resolved r ->
     nth_error (data r) 0 = Some q ->
     exactNumber (toTokenAmount q)) ->
  0 < requiredBalance (config (bot w)) ->
  run env shouldTrade w = (Returned true, w1) ->
  tradeCount (bot w) < maxDailyTrades (bot w) /\
  exists bal r q v,
    answer env (now w) (GetBalance (publicKey (wallet (bot w))))
      = Resolved bal /\
    requiredBalance (config (bot w)) <= bal /\
    answer env (S (now w)) (configuredQuote (bot w)) = Resolved r /\
    code r = "0" /\
    nth_error (data r) 0 = Some q /\
    JS.parseInt (toTokenAmount q) = Some v /\
    minExpected (config (bot w)) <= v /\
    calls (trace w1) =
      calls (trace w) ++ [GetBalance (publicKey (wallet (bot w)));
                          configuredQuote (bot w)].
Proof.
  intros _ _ _ Hreq E.
  pose proof (shouldTrade_true_below_limit env w w1 E) as Hlim.
  split; [exact Hlim|].
  pose proof (run_shouldTrade_short env w) as Short. cbv zeta in Short.
  destruct (answer env (now w) (GetBalance (publicKey (wallet (bot w)))))
    as [bal|m] eqn:Hbal.
  2:{ rewrite (Short Hlim Hreq) in E. discriminate E. }
  destruct (Z.lt_ge_cases bal (requiredBalance (config (bot w))))
    as [Hlow | Hok].
  { rewrite (Short Hlim Hlow) in E. discriminate E. }
  pose proof (run_shouldTrade_funded env w bal) as F. cbv zeta in F.
  rewrite (F Hlim Hbal Hok) in E.
  destruct (answer env (S (now w)) (configuredQuote (bot w))) as [r|m] eqn:Hq;
    [|discriminate E].
  destruct (String.eqb (code r) "0") eqn:Hcode; [|discriminate E].
  destruct (nth_error (data r) 0) as [q|] eqn:Hdata; [|discriminate E].
  destruct (JS.parseInt (toTokenAmount q)) as [v|] eqn:Hparse;
    [|discriminate E].
  cbn [JS.geq] in E. injection E as Hge <-.
  exists bal, r, q, v.
  apply String.eqb_eq in Hcode. apply Z.leb_le in Hge.
  repeat (split; [assumption || reflexivity|]).
  rewrite calls_printed, calls_awaited, calls_printed, calls_awaited.
  rewrite <- app_assoc. reflexivity.
Qed.

Lemma botConfig_exact : exactAmounts botConfig.
Proof. repeat split; cbv; discriminate. Qed.

Lemma sampleQuote_exact : exactNumber (toTokenAmount sampleQuote).
Proof.
  split; [reflexivity|]. intros v E. vm_compute in E. injection E as <-.
  cbv. discriminate.
Qed.

Lemma shouldTrade_true_sound_witness :
  exactAmounts botConfig /\
  exactNumber (toTokenAmount sampleQuote) /\
  0 < requiredBalance (config (bot (initial sampleBot))) /\
  calls (trace (snd (run workingEnv shouldTrade (initial sampleBot)))) =
    [GetBalance "wallet"; configuredQuote sampleBot].
Proof.
  split; [exact botConfig_exact|]. split; [exact sampleQuote_exact|].
  split; [reflexivity|].
  destruct (shouldTrade_true_sound workingEnv (initial sampleBot)
              (snd (run workingEnv shouldTrade (initial sampleBot))))
    as (_ & bal & r & q & v & _ & _ & _ & _ & _ & _ & _ & C).
  - exact botConfig_exact.
  - intros bal E. injection E as <-. cbv. discriminate.
  - intros r q E D. injection E as <-. injection D as <-.
    exact sampleQuote_exact.
  - reflexivity.
  - vm_compute. reflexivity.
  - exact C.
Defined.

(** X3.  With the limit not reached, a sufficient balance and a quote
    delivered, the decision is the comparison of the parsed amount with the
    threshold: true exactly when the amount parses to a number at or above
    [minExpected]; an amount that does not parse gives false.  The amounts
    of the configuration and the balance are safe integers and the amount
    quoted is an exact number, so that the comparison of the code, made on
    doubles, is the exact one. *)
Theorem shouldTrade_threshold env w bal r q :
  exactAmounts (config (bot w)) ->
  safeInteger bal ->
  exactNumber (toTokenAmount q) ->
  tradeCount (bot w) < maxDailyTrades (bot w) ->
  answer env (now w) (GetBalance (publicKey (wallet (bot w)))) = Resolved bal ->
  requiredBalance (config (bot w)) <= bal ->
  answer env (S (now w)) (configuredQuote (bot w)) = Resolved r ->
  code r = "0" ->
  nth_error (data r) 0 = Some q ->
  (fst (run env shouldTrade w) = Returned true <->
   exists v, JS.parseInt (toTokenAmount q) = Some v /\
             minExpected (config (bot w)) <= v) /\
  (JS.parseInt (toTokenAmount q) = None ->
   fst (run env shouldTrade w) = Returned false).
Proof.
  intros _ _ _ Hlim Hbal Hok Hq Hcode Hdata.
  pose proof (run_shouldTrade_funded env w bal) as F. cbv zeta in F.
  rewrite (F Hlim Hbal Hok), Hq, Hcode, Hdata. cbn [String.eqb fst].
  replace (String.eqb "0" "0") with true by reflexivity. cbn [fst].
  split.
  - destruct (JS.parseInt (toTokenAmount q)) as [v|]; cbn [JS.geq].
    + split.
      * intro E. injection E as E. exists v. split; [reflexivity|].
        apply Z.leb_le, E.
      * intros (v' & E & Hv). injection E as <-.
        apply Z.leb_le in Hv. rewrite Hv. reflexivity.
    + split; [discriminate|]. intros (v' & E & _). discriminate E.
  - intros ->. reflexivity.
Qed.

Lemma shouldTrade_threshold_witness :
  exactAmounts botConfig /\
  safeInteger 500000000 /\
  exactNumber (toTokenAmount sampleQuote) /\
  fst (run workingEnv shouldTrade (initial sampleBot)) = Returned true.
Proof.
  split; [exact botConfig_exact|]. split; [cbv; discriminate|].
  split; [exact sampleQuote_exact|].
  destruct (shouldTrade_threshold workingEnv (initial sampleBot) 500000000
              {| code := "0"; msg := ""; data := [sampleQuote] |} sampleQuote)
    as [[_ H] _];
    [exact botConfig_exact | cbv; discriminate | exact sampleQuote_exact
    | side | side | side | side | side | side |].
  apply H. exists 2000000. split; side.
Defined.

(** ** More on the swap *)

(** What [executeSwap] does with a quote, by the answers of the aggregator,
    the wallet and the ledger. *)
Lemma run_executeSwap env w q :
  let post := swapRequest (bot w) q in
  let w1 := awaited env post w in
  run env (executeSwap (Some q)) w =
  match answer env (now w) post with
  | Rejected m => swapFailure m w1
  | Resolved r =>
      if negb (String.eqb (code r) "0")
      then swapFailure ("Swap API Error: " ++ msg r) w1
      else
        match nth_error (data r) 0 with
        | None =>
            swapFailure
              "Cannot read properties of undefined (reading 'tx')" w1
        | Some tx =>
            match signTransaction (wallet (bot w)) tx with
            | Rejected m => swapFailure m w1
            | Resolved raw =>
                let w2 := awaited env (SendRawTransaction raw) w1 in
                match answer env (S (now w)) (SendRawTransaction raw) with
                | Rejected m => swapFailure m w2
                | Resolved signature =>
                    let w3 := awaited env (ConfirmTransaction signature)
                                (emit (Printed (LogTransactionSent signature))
                                   w2) in
                    match answer env (S (S (now w)))
                            (ConfirmTransaction signature) with
                    | Resolved None => (Returned signature, w3)
                    | Resolved (Some err) =>
                        if String.eqb err ""
                        then (Returned signature, w3)
                        else swapFailure ("Transaction failed: " ++ err) w3
                    | Rejected m => swapFailure m w3
                    end
                end
            end
        end
  end.
Proof.
  intros post w1. subst w1 post.
  unfold executeSwap, run, swapFailure, swapRequest, awaited. cbn.
  destruct (answer env (now w) _) as [r|m]; cbn; [|reflexivity].
  destruct (String.eqb (code r) "0"); cbn; [|reflexivity].
  destruct (data r) as [|tx rest]; cbn; [reflexivity|].
  rewrite wallet_interrupt. cbn.
  destruct (signTransaction (wallet (bot w)) tx) as [raw|m]; cbn;
    [|reflexivity].
  rewrite !now_interrupt. cbn.
  destruct (answer env (S (now w)) (SendRawTransaction raw)) as [signature|m];
    cbn; [|reflexivity].
  rewrite !now_interrupt. cbn. rewrite !now_interrupt. cbn.
  destruct (answer env (S (S (now w))) (ConfirmTransaction signature))
    as [[[|a err]|]|m]; reflexivity.
Qed.

Lemma run_executeSwap_undefined env w :
  run env (executeSwap None) w =
  swapFailure "Cannot read properties of undefined (reading 'fromToken')" w.
Proof. reflexivity. Qed.

Lemma calls_swapFailure m w :
  calls (trace (snd (swapFailure m w))) = calls (trace w).
Proof. unfold swapFailure. cbn [snd]. apply calls_printed. Qed.

Ltac swap_cases env w q :=
  rewrite (run_executeSwap env w q); cbv zeta;
  destruct (answer env (now w) (swapRequest (bot w) q)) as [?r|?m] eqn:?Hpost;
    [destruct (String.eqb (code r) "0") eqn:?Hcode; cbn [negb];
      [destruct (nth_error (data r) 0) as [?tx|] eqn:?Hdata;
        [destruct (signTransaction (wallet (bot w)) tx) as [?raw|?m] eqn:?Hsign;
          [destruct (answer env (S (now w)) (SendRawTransaction raw))
             as [?signature|?m] eqn:?Hsend;
            [destruct (answer env (S (S (now w)))
                         (ConfirmTransaction signature))
               as [[?err|]|?m] eqn:?Hconfirm;
              [destruct (String.eqb err "") eqn:?Herr| |]|]|]|]|]|].

(** X4.  [executeSwap] returns a signature only for a transaction that went
    all the way: the swap request built from the quote was answered with code
    ['0'] and a payload, the wallet signed the payload, the ledger accepted
    the signed transaction and gave that signature, and the confirmation of
    that signature resolved with an error that is not truthy ([null], or an
    empty one); these three calls, in this order, are all it made. *)
Theorem executeSwap_returns_confirmed env w quoteData sig w' :
  run env (executeSwap quoteData) w = (Returned sig, w') ->
  exists q r tx raw,
    quoteData = Some q /\
    answer env (now w) (swapRequest (bot w) q) = Resolved r /\
    code r = "0" /\
    nth_error (data r) 0 = Some tx /\
    signTransaction (wallet (bot w)) tx = Resolved raw /\
    answer env (S (now w)) (SendRawTransaction raw) = Resolved sig /\
    (exists err,
       answer env (S (S (now w))) (ConfirmTransaction sig) = Resolved err /\
       truthy err = false) /\
    calls (trace w') =
      calls (trace w) ++ [swapRequest (bot w) q; SendRawTransaction raw;
                          ConfirmTransaction sig].
Proof.
  destruct quoteData as [q|];
    [|rewrite run_executeSwap_undefined; intro E; discriminate E].
  swap_cases env w q; unfold swapFailure; intro E; try discriminate E;
    injection E as <- <-;
    exists q, r, tx, raw; apply String.eqb_eq in Hcode;
    repeat (split; [assumption || reflexivity|]);
    (split;
     [eexists; split; [eassumption|]; cbn [truthy]; rewrite ?Herr;
      reflexivity|]);
    rewrite calls_awaited, calls_printed, !calls_awaited, <- !app_assoc;
    reflexivity.
Qed.

Lemma executeSwap_returns_confirmed_witness :
  (exists raw,
     calls (trace (snd (run workingEnv (executeSwap (Some sampleQuote))
                          (initial sampleBot)))) =
     [swapRequest sampleBot sampleQuote; SendRawTransaction raw;
      ConfirmTransaction "5VERv8"]) /\
  (exists err,
     answer emptyErrorEnv 2 (ConfirmTransaction "5VERv8") = Resolved err /\
     truthy err = false).
Proof.
  split.
  - destruct (executeSwap_returns_confirmed workingEnv (initial sampleBot)
                (Some sampleQuote) "5VERv8"
                (snd (run workingEnv (executeSwap (Some sampleQuote))
                        (initial sampleBot))))
      as (q & r & tx & raw & Eq & _ & _ & _ & _ & _ & _ & C);
      [vm_compute; reflexivity|].
    injection Eq as <-. exists raw. exact C.
  - destruct (executeSwap_returns_confirmed emptyErrorEnv (initial sampleBot)
                (Some sampleQuote) "5VERv8"
                (snd (run emptyErrorEnv (executeSwap (Some sampleQuote))
                        (initial sampleBot))))
      as (q & r & tx & raw & _ & _ & _ & _ & _ & _ & T & _);
      [vm_compute; reflexivity|].
    exact T.
Defined.

(** X5.  [executeSwap] makes at most three calls, and never sends anything
    the wallet did not sign: a transaction is sent only when the swap
    request was answered with code ['0'] and the sent bytes are what the
    wallet made of the first payload; a confirmation is awaited only for the
    signature the ledger gave for the transaction just sent. *)
Theorem executeSwap_sends_only_signed env w quoteData :
  exists new,
    calls (trace (snd (run env (executeSwap quoteData) w)))
      = calls (trace w) ++ new /\
    (List.length new <= 3)%nat /\
    (forall raw, In (SendRawTransaction raw) new ->
       exists q r tx,
         quoteData = Some q /\
         answer env (now w) (swapRequest (bot w) q) = Resolved r /\
         code r = "0" /\
         nth_error (data r) 0 = Some tx /\
         signTransaction (wallet (bot w)) tx = Resolved raw) /\
    (forall sig, In (ConfirmTransaction sig) new ->
       exists raw,
         In (SendRawTransaction raw) new /\
         answer env (S (now w)) (SendRawTransaction raw) = Resolved sig).
Proof.
  destruct quoteData as [q|].
  2:{ rewrite run_executeSwap_undefined, calls_swapFailure. exists [].
      rewrite app_nil_r. split; [reflexivity|]. split; [cbn; lia|].
      split; intros x []. }
  swap_cases env w q; rewrite ?calls_swapFailure; cbn [snd];
    rewrite ?calls_awaited, ?calls_printed, ?calls_awaited, <- ?app_assoc;
    cbn [app]; eexists; (split; [reflexivity|]); (split; [cbn; lia|]);
    split; intros x Hin; cbn [In] in Hin;
    repeat match goal with
           | H : _ \/ _ |- _ => destruct H
           | H : False |- _ => destruct H
           | H : swapRequest _ _ = _ |- _ => discriminate H
           | H : SendRawTransaction _ = ConfirmTransaction _ |- _ =>
               discriminate H
           | H : ConfirmTransaction _ = SendRawTransaction _ |- _ =>
               discriminate H
           | H : SendRawTransaction _ = SendRawTransaction _ |- _ =>
               injection H as <-
           | H : ConfirmTransaction _ = ConfirmTransaction _ |- _ =>
               injection H as <-
           end;
    try (exists q, r, tx; apply String.eqb_eq in Hcode;
         repeat (split; [assumption || reflexivity|]); assumption);
    try (exists raw; split; [cbn; auto | assumption]).
Qed.

(** The same for a world reached from [b] at suspension [n]. *)
Lemma run_executeSwap_at env w q n b :
  now w = n -> config (bot w) = config b -> wallet (bot w) = wallet b ->
  let post := swapRequest b q in
  let w1 := awaited env post w in
  run env (executeSwap (Some q)) w =
  match answer env n post with
  | Rejected m => swapFailure m w1
  | Resolved r =>
      if negb (String.eqb (code r) "0")
      then swapFailure ("Swap API Error: " ++ msg r) w1
      else
        match nth_error (data r) 0 with
        | None =>
            swapFailure
              "Cannot read properties of undefined (reading 'tx')" w1
        | Some tx =>
            match signTransaction (wallet b) tx with
            | Rejected m => swapFailure m w1
            | Resolved raw =>
                let w2 := awaited env (SendRawTransaction raw) w1 in
                match answer env (S n) (SendRawTransaction raw) with
                | Rejected m => swapFailure m w2
                | Resolved signature =>
                    let w3 := awaited env (ConfirmTransaction signature)
                                (emit (Printed (LogTransactionSent signature))
                                   w2) in
                    match answer env (S (S n))
                            (ConfirmTransaction signature) with
                    | Resolved None => (Returned signature, w3)
                    | Resolved (Some err) =>
                        if String.eqb err ""
                        then (Returned signature, w3)
                        else swapFailure ("Transaction failed: " ++ err) w3
                    | Rejected m => swapFailure m w3
                    end
                end
            end
        end
  end.
Proof.
  intros <- Hc Hw. rewrite run_executeSwap. unfold swapRequest.
  rewrite Hc, Hw. reflexivity.
Qed.

(** What [performSwap] does, by the answer to its quote request. *)
Lemma run_performSwap_answers env w :
  let c := configuredQuote (bot w) in
  let w1 := awaited env c (emit (Printed LogStartingSwap) w) in
  run env performSwap w =
  match answer env (now w) c with
  | Rejected m => tradeFailure m (emit (Printed (ErrGettingQuote m)) w1)
  | Resolved rq =>
      if String.eqb (code rq) "0"
      then
        match nth_error (data rq) 0 with
        | None =>
            tradeFailure
              "Cannot read properties of undefined (reading 'toTokenAmount')"
              w1
        | Some q =>
            match run env (executeSwap (Some q))
                    (emit (Printed (LogSwapping
                                      (JS.parseInt (toTokenAmount q)))) w1)
            with
            | (Returned signature, w2) =>
                (Returned signature,
                 emit (Printed (LogTotalTrades (tradeCount (bot w2) + 1)
                                  (maxDailyTrades (bot w2))))
                   (emit (Printed (LogSwapCompleted signature))
                      (write incrTradeCount w2)))
            | (Thrown m, w2) => tradeFailure m w2
            end
        end
      else
        tradeFailure ("API Error: " ++ msg rq)
          (emit (Printed (ErrGettingQuote ("API Error: " ++ msg rq))) w1)
  end.
Proof.
  intros c w1. rewrite run_performSwap. cbv zeta. rewrite run_getSwapQuote.
  cbv zeta.
  change (quoteRequest (bot (emit (Printed LogStartingSwap) w)) _ _ _)
    with c.
  change (now (emit (Printed LogStartingSwap) w)) with (now w). fold w1.
  unfold tradeFailure.
  destruct (answer env (now w) c) as [rq|m]; [|reflexivity].
  destruct (String.eqb (code rq) "0"); [|reflexivity].
  destruct (nth_error (data rq) 0) as [q|]; reflexivity.
Qed.

Lemma executeSwap_sends_only_signed_witness :
  exists q r tx,
    Some sampleQuote = Some q /\
    answer workingEnv 0 (swapRequest sampleBot q) = Resolved r /\
    code r = "0" /\
    nth_error (data r) 0 = Some tx /\
    signTransaction sampleWallet tx = Resolved "AQID".
Proof.
  destruct (executeSwap_sends_only_signed workingEnv (initial sampleBot)
              (Some sampleQuote)) as (new & E & _ & H & _).
  apply (H "AQID"). vm_compute in E. rewrite <- E. right. left. reflexivity.
Defined.

(** Every program only adds calls to the trace. *)
Lemma run_extends_calls {A : Type} env (p : prog A) : forall w,
  exists new, calls (trace (snd (run env p w))) = calls (trace w) ++ new.
Proof.
  induction p as [a|m|k IH|g k IH|l k IH|c k IH]; intro w.
  - exists []. rewrite run_ret. symmetry. apply app_nil_r.
  - exists []. rewrite run_throw. symmetry. apply app_nil_r.
  - rewrite run_read. apply IH.
  - rewrite run_modify. destruct (IH (write g w)) as [new E].
    exists new. exact E.
  - rewrite run_print. destruct (IH (emit (Printed l) w)) as [new E].
    exists new. rewrite E, calls_printed. reflexivity.
  - rewrite run_await.
    destruct (IH (answer env (now w) c)
                (advance (interrupt env (now w) (emit (Called c) w))))
      as [new E].
    exists (c :: new). rewrite E. fold (awaited env c w).
    rewrite calls_awaited, <- app_assoc. reflexivity.
Qed.

(** The world in which [performSwap] calls [executeSwap]. *)
Lemma performSwap_quoted_world env w l :
  let wq := emit (Printed l)
              (awaited env (configuredQuote (bot w))
                 (emit (Printed LogStartingSwap) w)) in
  now wq = S (now w) /\
  config (bot wq) = config (bot w) /\
  wallet (bot wq) = wallet (bot w) /\
  calls (trace wq) = calls (trace w) ++ [configuredQuote (bot w)].
Proof.
  cbv zeta. cbn [now bot emit]. rewrite now_awaited.
  unfold awaited at 1 2. cbn [bot advance].
  rewrite config_interrupt, wallet_interrupt.
  rewrite calls_printed, calls_awaited, calls_printed. auto.
Qed.

Lemma executeSwap_failure_shape env w quoteData m w' :
  run env (executeSwap quoteData) w = (Thrown m, w') ->
  exists w0, w' = emit (Printed (ErrExecutingSwap m)) w0.
Proof.
  destruct quoteData as [q|].
  - swap_cases env w q; unfold swapFailure; intro E; try discriminate E;
      injection E as <- <-; eexists; reflexivity.
  - rewrite run_executeSwap_undefined. unfold swapFailure.
    intro E. injection E as <- <-. eexists. reflexivity.
Qed.

(** X6.  [performSwap] always asks for a quote of its own, as its first
    call, whatever [shouldTrade] was quoted before; and when that request is
    not answered with code ['0'] and a quote, it makes no other call and
    throws: no swap is requested without a fresh quote. *)
Theorem performSwap_quotes_first env w :
  exists rest,
    calls (trace (snd (run env performSwap w)))
      = calls (trace w) ++ configuredQuote (bot w) :: rest /\
    ((forall r q, answer env (now w) (configuredQuote (bot w)) = Resolved r ->
                  code r = "0" -> nth_error (data r) 0 = Some q -> False) ->
     rest = [] /\ exists m, fst (run env performSwap w) = Thrown m).
Proof.
  rewrite run_performSwap_answers. cbv zeta. unfold tradeFailure.
  destruct (answer env (now w) (configuredQuote (bot w))) as [rq|m] eqn:Hq.
  - destruct (String.eqb (code rq) "0") eqn:Hcode.
    + destruct (nth_error (data rq) 0) as [q|] eqn:Hdata.
      * destruct (run_extends_calls env (executeSwap (Some q))
                    (emit (Printed (LogSwapping
                                      (JS.parseInt (toTokenAmount q))))
                       (awaited env (configuredQuote (bot w))
                          (emit (Printed LogStartingSwap) w))))
          as [rest E].
        destruct (performSwap_quoted_world env w
                    (LogSwapping (JS.parseInt (toTokenAmount q))))
          as (_ & _ & _ & C).
        cbv zeta in C. rewrite C, <- app_assoc in E. cbn [app] in E.
        exists rest. split.
        -- destruct (run env (executeSwap (Some q)) _) as [[sig|m] w2];
             cbn [snd] in *; rewrite ?calls_printed; exact E.
        -- intro H. exfalso. apply (H rq q); auto.
           apply String.eqb_eq, Hcode.
      * exists []. split.
        -- cbn [snd]. rewrite calls_printed, calls_awaited, calls_printed.
           reflexivity.
        -- intros _. split; [reflexivity|]. eexists. reflexivity.
    + exists []. split.
      * cbn [snd]. rewrite !calls_printed, calls_awaited, calls_printed.
        reflexivity.
      * intros _. split; [reflexivity|]. eexists. reflexivity.
  - exists []. split.
    + cbn [snd]. rewrite !calls_printed, calls_awaited, calls_printed.
      reflexivity.
    + intros _. split; [reflexivity|]. eexists. reflexivity.
Qed.

Lemma performSwap_quotes_first_witness :
  exists m, fst (run quoteDownEnv performSwap (initial sampleBot)) = Thrown m.
Proof.
  destruct (performSwap_quotes_first quoteDownEnv (initial sampleBot))
    as (rest & _ & H).
  apply H. intros r q E. discriminate E.
Defined.


(** [executeSwap] as [performSwap] calls it, by the answers. *)
Lemma run_executeSwap_quoted env w q :
  let wq := emit (Printed (LogSwapping (JS.parseInt (toTokenAmount q))))
              (awaited env (configuredQuote (bot w))
                 (emit (Printed LogStartingSwap) w)) in
  let post := swapRequest (bot w) q in
  let w1 := awaited env post wq in
  run env (executeSwap (Some q)) wq =
  match answer env (S (now w)) post with
  | Rejected m => swapFailure m w1
  | Resolved r =>
      if negb (String.eqb (code r) "0")
      then swapFailure ("Swap API Error: " ++ msg r) w1
      else
        match nth_error (data r) 0 with
        | None =>
            swapFailure
              "Cannot read properties of undefined (reading 'tx')" w1
        | Some tx =>
            match signTransaction (wallet (bot w)) tx with
            | Rejected m => swapFailure m w1
            | Resolved raw =>
                let w2 := awaited env (SendRawTransaction raw) w1 in
                match answer env (S (S (now w))) (SendRawTransaction raw) with
                | Rejected m => swapFailure m w2
                | Resolved signature =>
                    let w3 := awaited env (ConfirmTransaction signature)
                                (emit (Printed (LogTransactionSent signature))
                                   w2) in
                    match answer env (S (S (S (now w))))
                            (ConfirmTransaction signature) with
                    | Resolved None => (Returned signature, w3)
                    | Resolved (Some err) =>
                        if String.eqb err ""
                        then (Returned signature, w3)
                        else swapFailure ("Transaction failed: " ++ err) w3
                    | Rejected m => swapFailure m w3
                    end
                end
            end
        end
  end.
Proof.
  intro wq.
  destruct (performSwap_quoted_world env w
              (LogSwapping (JS.parseInt (toTokenAmount q))))
    as (N & C & W & _).
  exact (run_executeSwap_at env wq q (S (now w)) (bot w) N C W).
Qed.

Ltac trade_cases env w :=
  rewrite (run_performSwap_answers env w); cbv zeta;
  destruct (answer env (now w) (configuredQuote (bot w)))
    as [?rq|?m] eqn:?Hquote;
    [destruct (String.eqb (code rq) "0") eqn:?Hqcode;
      [destruct (nth_error (data rq) 0) as [?q|] eqn:?Hqdata;
        [rewrite (run_executeSwap_quoted env w q); cbv zeta;
         destruct (answer env (S (now w)) (swapRequest (bot w) q))
           as [?r|?m] eqn:?Hpost;
           [destruct (String.eqb (code r) "0") eqn:?Hcode; cbn [negb];
             [destruct (nth_error (data r) 0) as [?tx|] eqn:?Hdata;
               [destruct (signTransaction (wallet (bot w)) tx)
                  as [?raw|?m] eqn:?Hsign;
                 [destruct (answer env (S (S (now w)))
                              (SendRawTransaction raw))
                    as [?signature|?m] eqn:?Hsend;
                   [destruct (answer env (S (S (S (now w))))
                                (ConfirmTransaction signature))
                      as [[?err|]|?m] eqn:?Hconfirm;
                     [destruct (String.eqb err "") eqn:?Herr| |]
                   |]|]|]|]|]|]|]|];
  unfold swapFailure, tradeFailure.

(** X7.  [performSwap] returns a signature only when its own quote was
    delivered, the swap request carrying the addresses and the amount of that
    quote was answered with code ['0'], the wallet signed the payload, the
    ledger accepted the transaction and the confirmation of that signature
    resolved with an error that is not truthy ([null], or an empty one); its
    calls are then exactly these four, in this order. *)
Theorem performSwap_returns_confirmed env w sig w' :
  run env performSwap w = (Returned sig, w') ->
  exists rq q r tx raw,
    answer env (now w) (configuredQuote (bot w)) = Resolved rq /\
    code rq = "0" /\
    nth_error (data rq) 0 = Some q /\
    answer env (S (now w)) (swapRequest (bot w) q) = Resolved r /\
    code r = "0" /\
    nth_error (data r) 0 = Some tx /\
    signTransaction (wallet (bot w)) tx = Resolved raw /\
    answer env (S (S (now w))) (SendRawTransaction raw) = Resolved sig /\
    (exists err,
       answer env (S (S (S (now w)))) (ConfirmTransaction sig)
         = Resolved err /\
       truthy err = false) /\
    calls (trace w') =
      calls (trace w) ++ [configuredQuote (bot w); swapRequest (bot w) q;
                          SendRawTransaction raw; ConfirmTransaction sig].
Proof.
  trade_cases env w; intro E; try discriminate E;
    injection E as <- <-;
    exists rq, q, r, tx, raw;
    apply String.eqb_eq in Hqcode; apply String.eqb_eq in Hcode;
    repeat (split; [assumption || reflexivity|]);
    (split;
     [eexists; split; [eassumption|]; cbn [truthy]; rewrite ?Herr;
      reflexivity|]);
    rewrite !calls_printed; cbn [trace write];
    rewrite calls_awaited, calls_printed, !calls_awaited;
    destruct (performSwap_quoted_world env w
                (LogSwapping (JS.parseInt (toTokenAmount q))))
      as (_ & _ & _ & C);
    cbv zeta in C; rewrite C, <- !app_assoc; reflexivity.
Qed.

Lemma performSwap_returns_confirmed_witness :
  exists q raw,
    calls (trace (snd (run workingEnv performSwap (initial sampleBot)))) =
    [configuredQuote sampleBot; swapRequest sampleBot q;
     SendRawTransaction raw; ConfirmTransaction "5VERv8"].
Proof.
  destruct (performSwap_returns_confirmed workingEnv (initial sampleBot)
              "5VERv8"
              (snd (run workingEnv performSwap (initial sampleBot))))
    as (rq & q & r & tx & raw & _ & _ & _ & _ & _ & _ & _ & _ & _ & C);
    [vm_compute; reflexivity|].
  exists q, raw. exact C.
Defined.


(** X8.  A transaction that was sent but whose confirmation fails, because
    the client throws (a timeout, say) or reports an error that is truthy,
    makes [performSwap] throw: the transaction is among the calls made, and
    the counter is not incremented. *)
Theorem performSwap_unconfirmed_not_counted env w rq q r tx raw sig :
  answer env (now w) (configuredQuote (bot w)) = Resolved rq ->
  code rq = "0" ->
  nth_error (data rq) 0 = Some q ->
  answer env (S (now w)) (swapRequest (bot w) q) = Resolved r ->
  code r = "0" ->
  nth_error (data r) 0 = Some tx ->
  signTransaction (wallet (bot w)) tx = Resolved raw ->
  answer env (S (S (now w))) (SendRawTransaction raw) = Resolved sig ->
  (forall err,
     answer env (S (S (S (now w)))) (ConfirmTransaction sig) = Resolved err ->
     truthy err = true) ->
  (exists m, fst (run env performSwap w) = Thrown m) /\
  In (SendRawTransaction raw) (calls (trace (snd (run env performSwap w)))) /\
  tradeCount (bot (snd (run env performSwap w))) = tradeCount (bot w).
Proof.
  intros Hq Hqc Hqd Hp Hc Hd Hs Hsend Hconf.
  assert (E : exists m w',
             run env performSwap w = (Thrown m, w') /\
             In (SendRawTransaction raw) (calls (trace w'))).
  { rewrite run_performSwap_answers. cbv zeta. rewrite Hq, Hqc, Hqd.
    cbn [String.eqb]. replace (String.eqb "0" "0") with true by reflexivity.
    rewrite run_executeSwap_quoted. cbv zeta. rewrite Hp, Hc, Hd, Hs, Hsend.
    replace (String.eqb "0" "0") with true by reflexivity. cbn [negb].
    unfold swapFailure, tradeFailure.
    assert (I : forall l1 l2 w0,
              In (SendRawTransaction raw)
                (calls (trace
                   (emit (Printed l1) (emit (Printed l2)
                      (awaited env (ConfirmTransaction sig)
                         (emit (Printed (LogTransactionSent sig))
                            (awaited env (SendRawTransaction raw) w0)))))))).
    { intros l1 l2 w0.
      rewrite !calls_printed, calls_awaited, calls_printed, calls_awaited.
      apply in_or_app. left. apply in_or_app. right. left. reflexivity. }
    destruct (answer env (S (S (S (now w)))) (ConfirmTransaction sig))
      as [[err|]|m].
    - pose proof (Hconf (Some err) eq_refl) as T. cbn [truthy] in T.
      apply negb_true_iff in T. rewrite T.
      eexists; eexists; (split; [reflexivity | apply I]).
    - discriminate (Hconf None eq_refl).
    - eexists; eexists; (split; [reflexivity | apply I]). }
  destruct E as (m & w' & E & Hin). rewrite E. cbn [fst snd].
  split; [exists m; reflexivity|]. split; [exact Hin|].
  destruct (performSwap_counts env w _ _ E) as (T & _). rewrite T. lia.
Qed.

Lemma performSwap_unconfirmed_not_counted_witness :
  In (SendRawTransaction "AQID")
    (calls (trace (snd (run confirmTimesOutEnv performSwap
                          (initial sampleBot))))) /\
  tradeCount (bot (snd (run confirmTimesOutEnv performSwap
                          (initial sampleBot)))) = 0.
Proof.
  destruct (performSwap_unconfirmed_not_counted confirmTimesOutEnv
              (initial sampleBot)
              {| code := "0"; msg := ""; data := [sampleQuote] |} sampleQuote
              {| code := "0"; msg := ""; data := ["AQID"] |} "AQID" "AQID"
              "5VERv8")
    as (_ & I & T); try reflexivity.
  - discriminate.
  - split; [exact I | exact T].
Defined.


(** X9.  A failure of [performSwap] is never silent and its message is not
    rewritten on the way up: the last line printed carries the message
    thrown, and before it that same message was printed by [getSwapQuote] or
    by [executeSwap], unless it is the error of reading the amount of a quote
    that is [undefined]. *)
Theorem performSwap_failure_reported env w m w' :
  run env performSwap w = (Thrown m, w') ->
  exists w0,
    w' = emit (Printed (ErrSwapFailed m)) w0 /\
    (In (Printed (ErrGettingQuote m)) (trace w0) \/
     In (Printed (ErrExecutingSwap m)) (trace w0) \/
     m = "Cannot read properties of undefined (reading 'toTokenAmount')").
Proof.
  rewrite run_performSwap_answers. cbv zeta. unfold tradeFailure.
  destruct (answer env (now w) (configuredQuote (bot w))) as [rq|m0].
  - destruct (String.eqb (code rq) "0").
    + destruct (nth_error (data rq) 0) as [q|].
      * destruct (run env (executeSwap (Some q)) _) as [[sig|m1] w2] eqn:Ex;
          intro E; [discriminate E|]. injection E as <- <-.
        exists w2. split; [reflexivity|]. right. left.
        destruct (executeSwap_failure_shape _ _ _ _ _ Ex) as [w0 ->].
        apply printed_last.
      * intro E. injection E as <- <-. eexists. split; [reflexivity|].
        right. right. reflexivity.
    + intro E. injection E as <- <-. eexists. split; [reflexivity|].
      left. apply printed_last.
  - intro E. injection E as <- <-. eexists. split; [reflexivity|].
    left. apply printed_last.
Qed.

Lemma performSwap_failure_reported_witness :
  exists w0,
    snd (run swapFailsEnv performSwap (initial sampleBot)) =
    emit (Printed (ErrSwapFailed "Transaction failed: InstructionError")) w0.
Proof.
  destruct (performSwap_failure_reported swapFailsEnv (initial sampleBot)
              "Transaction failed: InstructionError"
              (snd (run swapFailsEnv performSwap (initial sampleBot))))
    as (w0 & E & _); [vm_compute; reflexivity|].
  exists w0. exact E.
Defined.


(** ** More on the loop *)

(** A tick of a bot that has reached its limit. *)
Lemma run_tick_at_limit env w :
  maxDailyTrades (bot w) <= tradeCount (bot w) ->
  run env tick w =
  (Returned tt,
   slept env (checkInterval (config (bot w)))
     (emit (Printed LogNotMet)
        (emit (Printed LogLimitReached) (emit (Printed LogChecking) w)))).
Proof.
  intro H. rewrite run_tick.
  rewrite (run_shouldTrade_at_limit env (emit (Printed LogChecking) w) H).
  reflexivity.
Qed.

(** X10.  The counter is never reset: once the limit is reached, however
    many ticks the loop goes on, it calls neither the ledger nor the
    aggregator again; its only calls are sleeps of the check interval, at
    most one per tick, and the counter stays what it was. *)
Theorem loop_idles_at_limit env fuel : forall w,
  maxDailyTrades (bot w) <= tradeCount (bot w) ->
  exists k,
    (k <= fuel)%nat /\
    calls (trace (snd (run env (loop fuel) w))) =
      calls (trace w)
        ++ repeat (SetTimeout (checkInterval (config (bot w)))) k /\
    tradeCount (bot (snd (run env (loop fuel) w))) = tradeCount (bot w).
Proof.
  induction fuel as [|fuel IH]; intros w H.
  - exists 0%nat. split; [lia|]. split; [|reflexivity].
    symmetry. apply app_nil_r.
  - rewrite run_loop_S. destruct (isRunning (bot w)).
    + rewrite (run_tick_at_limit env w H). cbn [snd].
      set (w1 := slept env _ _).
      assert (C : calm w w1).
      { unfold w1. eapply calm_trans; [|apply calm_slept].
        eapply calm_trans; [apply calm_emit|].
        eapply calm_trans; [apply calm_emit|]. apply calm_emit. }
      assert (H1 : maxDailyTrades (bot w1) <= tradeCount (bot w1)).
      { rewrite (calm_tradeCount _ _ C), (calm_maxDailyTrades _ _ C).
        exact H. }
      destruct (IH w1 H1) as (k & Hk & Ec & Et).
      exists (S k). split; [lia|]. split.
      * rewrite Ec, (calm_config _ _ C). unfold w1.
        rewrite calls_slept, !calls_printed, <- app_assoc. reflexivity.
      * rewrite Et. apply (calm_tradeCount _ _ C).
    + exists 0%nat. split; [lia|]. split; [|reflexivity].
      symmetry. apply app_nil_r.
Qed.

Lemma loop_idles_at_limit_witness :
  maxDailyTrades (bot (initial exhaustedBot))
    <= tradeCount (bot (initial exhaustedBot)) /\
  tradeCount (bot (snd (run workingEnv (loop 10) (initial exhaustedBot)))) = 5.
Proof.
  split; [cbn; lia|].
  destruct (loop_idles_at_limit workingEnv 10 (initial exhaustedBot))
    as (k & _ & _ & T); [cbn; lia|].
  exact T.
Defined.


Lemma interrupt_never env n w :
  (forall k, stopDuring env k = false) -> interrupt env n w = w.
Proof. intro H. unfold interrupt. rewrite H. reflexivity. Qed.

(** Without a call of [stop()], a program that does not write the flag
    leaves it as it was. *)
Lemma flag_kept {A : Type} env (p : prog A) :
  (forall k, stopDuring env k = false) ->
  writes sameFlag p ->
  forall w, isRunning (bot (snd (run env p w))) = isRunning (bot w).
Proof.
  intro Hs.
  induction p as [a|m|k IH|g k IH|l k IH|c k IH]; intros Hq w; cbn in Hq.
  - reflexivity.
  - reflexivity.
  - rewrite run_read. apply IH, Hq.
  - rewrite run_modify. destruct Hq as [Hg Hk].
    rewrite (IH Hk). cbn. apply Hg.
  - rewrite run_print. rewrite (IH Hq). reflexivity.
  - rewrite run_await, (IH _ (Hq _)). cbn [bot advance].
    rewrite (interrupt_never env _ _ Hs). reflexivity.
Qed.

(** X11.  Errors never end the loop.  The loop itself never throws; when it
    ends, the flag is cleared; and when [stop()] is never called on a running
    bot, the loop is still running after any number of ticks, whatever the
    ledger and the aggregator answer. *)
Theorem loop_ends_only_by_stop env fuel : forall w,
  (exists e, fst (run env (loop fuel) w) = Returned e) /\
  (fst (run env (loop fuel) w) = Returned Finished ->
   isRunning (bot (snd (run env (loop fuel) w))) = false) /\
  ((forall k, stopDuring env k = false) ->
   isRunning (bot w) = true ->
   fst (run env (loop fuel) w) = Returned StillRunning /\
   isRunning (bot (snd (run env (loop fuel) w))) = true).
Proof.
  induction fuel as [|fuel IH]; intro w.
  - split; [eexists; reflexivity|]. split; [discriminate|]. auto.
  - rewrite run_loop_S. destruct (isRunning (bot w)) eqn:Hr.
    + destruct (IH (snd (run env tick w))) as (E & F & S).
      split; [exact E|]. split; [exact F|].
      intros Hs _. apply (S Hs).
      rewrite (flag_kept env tick Hs); [exact Hr|].
      apply writes_tick. intro b. reflexivity.
    + split; [eexists; reflexivity|]. split; [intros _; exact Hr|].
      intros _ H. discriminate H.
Qed.

Lemma loop_ends_only_by_stop_witness :
  fst (run swapFailsEnv (loop 10) (initial runningBot))
  = Returned StillRunning.
Proof.
  destruct (loop_ends_only_by_stop swapFailsEnv 10 (initial runningBot))
    as (_ & _ & H).
  apply H; reflexivity.
Defined.


(** The counter after a tick. *)
Lemma tick_counts env w :
  (tradeCount (bot (snd (run env tick w))) = tradeCount (bot w) \/
   tradeCount (bot (snd (run env tick w))) = tradeCount (bot w) + 1) /\
  config (bot (snd (run env tick w))) = config (bot w).
Proof.
  rewrite run_tick.
  pose proof (calm_emit (Printed LogChecking) w) as C0.
  destruct (run env shouldTrade _) as [[[|]|m] w1] eqn:Hd;
    pose proof (calm_trans _ _ _ C0
                  (quiet_calm env _ quiet_shouldTrade _ _ _ Hd)) as C1.
  - destruct (run env performSwap w1) as [[sig|m] w2] eqn:Hs;
      destruct (performSwap_counts _ _ _ _ Hs) as (T & _ & G);
      cbv zeta; cbn [snd];
      rewrite ?(calm_tradeCount _ _ (calm_slept _ _ _)),
        ?(calm_config _ _ (calm_slept _ _ _)); cbn [bot emit];
      rewrite T, G, (calm_tradeCount _ _ C1), (calm_config _ _ C1).
    + split; [right|]; reflexivity.
    + split; [left; lia | reflexivity].
  - cbv zeta; cbn [snd].
    rewrite (calm_tradeCount _ _ (calm_slept _ _ _)),
      (calm_config _ _ (calm_slept _ _ _)). cbn [bot emit].
    rewrite (calm_tradeCount _ _ C1), (calm_config _ _ C1). auto.
  - cbn [snd].
    rewrite (calm_tradeCount _ _ (calm_slept _ _ _)),
      (calm_config _ _ (calm_slept _ _ _)). cbn [bot emit].
    rewrite (calm_tradeCount _ _ C1), (calm_config _ _ C1). auto.
Qed.

(** X12.  At most one trade per tick: after [fuel] ticks of the loop the
    counter has not decreased and has grown by [fuel] at most. *)
Theorem trades_bounded_by_ticks env fuel : forall w,
  tradeCount (bot w) <= tradeCount (bot (snd (run env (loop fuel) w))) /\
  tradeCount (bot (snd (run env (loop fuel) w)))
    <= tradeCount (bot w) + Z.of_nat fuel.
Proof.
  induction fuel as [|fuel IH]; intro w.
  - cbn. lia.
  - rewrite run_loop_S. destruct (isRunning (bot w)); [|cbn [snd]; lia].
    destruct (IH (snd (run env tick w))) as [L U].
    destruct (tick_counts env w) as [[T | T] _]; rewrite T in L, U; lia.
Qed.


(** X13.  The loop never spins: whatever happens in a tick, its last call
    is a sleep, of the check interval or of the retry delay. *)
Theorem tick_ends_with_sleep env w :
  exists before delay,
    calls (trace (snd (run env tick w))) =
      calls (trace w) ++ before ++ [SetTimeout delay] /\
    (delay = checkInterval (config (bot w)) \/ delay = retryDelay).
Proof.
  rewrite run_tick.
  pose proof (calm_emit (Printed LogChecking) w) as C0.
  destruct (run_extends_calls env shouldTrade (emit (Printed LogChecking) w))
    as [l1 E1].
  rewrite calls_printed in E1.
  destruct (run env shouldTrade _) as [[[|]|m] w1] eqn:Hd;
    pose proof (calm_trans _ _ _ C0
                  (quiet_calm env _ quiet_shouldTrade _ _ _ Hd)) as C1;
    cbn [snd] in E1.
  - destruct (run_extends_calls env performSwap w1) as [l2 E2].
    destruct (run env performSwap w1) as [[sig|m] w2] eqn:Hs;
      destruct (performSwap_counts _ _ _ _ Hs) as (_ & _ & G);
      cbn [snd] in E2; cbv zeta; cbn [snd].
    + exists (l1 ++ l2 ++ [SetTimeout (tradeCooldown (config (bot w2)))]),
        (checkInterval (config (bot w))).
      split; [|left; reflexivity].
      rewrite calls_slept, (calm_config _ _ (calm_slept _ _ _)).
      cbn [bot emit]. rewrite G, (calm_config _ _ C1).
      rewrite calls_slept, calls_printed, E2, E1, <- !app_assoc.
      reflexivity.
    + exists (l1 ++ l2), retryDelay. split; [|right; reflexivity].
      rewrite calls_slept, !calls_printed, E2, E1, <- !app_assoc.
      reflexivity.
  - exists l1, (checkInterval (config (bot w))). split; [|left; reflexivity].
    cbv zeta; cbn [snd]. cbn [bot emit].
    rewrite (calm_config _ _ C1), calls_slept, calls_printed, E1,
      <- app_assoc. reflexivity.
  - exists l1, retryDelay. split; [|right; reflexivity]. cbn [snd].
    rewrite calls_slept, !calls_printed, E1, <- app_assoc. reflexivity.
Qed.


(** The history of a run grows by values related, one to the next, by the
    relation its writes respect. *)
Lemma writes_history {A : Type} (R : Bot -> Bot -> Prop) env (p : prog A) :
  (forall b, R b (setRunning false b)) ->
  writes R p ->
  forall w, exists l,
    visited (snd (run env p w)) = visited w ++ l /\
    chain R (bot w :: l).
Proof.
  intro Hstop.
  induction p as [a|m|k IH|g k IH|l k IH|c k IH]; intros Hq w; cbn in Hq.
  - exists []. rewrite run_ret. split; [symmetry; apply app_nil_r | exact I].
  - exists []. rewrite run_throw. split; [symmetry; apply app_nil_r | exact I].
  - rewrite run_read. apply IH, Hq.
  - rewrite run_modify. destruct Hq as [Hg Hk].
    destruct (IH Hk (write g w)) as (l & E & C).
    exists (g (bot w) :: l). split.
    + rewrite E. unfold visited. cbn. rewrite <- !app_assoc. reflexivity.
    + split; [apply Hg | exact C].
  - rewrite run_print. destruct (IH Hq (emit (Printed l) w)) as (l' & E & C).
    exists l'. split; [exact E | exact C].
  - rewrite run_await.
    destruct (IH _ (Hq (answer env (now w) c))
                (advance (interrupt env (now w) (emit (Called c) w))))
      as (l & E & C).
    destruct (interrupt_cases env (now w) (emit (Called c) w)) as [Ei | Ei];
      rewrite Ei in E, C |- *.
    + exists l. split; [exact E | exact C].
    + exists (setRunning false (bot w) :: l). split.
      * rewrite E. unfold visited. cbn. rewrite <- !app_assoc. reflexivity.
      * split; [apply Hstop | exact C].
Qed.

Lemma writes_loop R fuel :
  (forall b, R b (incrTradeCount b)) -> writes R (loop fuel).
Proof.
  intro HR. induction fuel as [|fuel IH]; [exact I|].
  cbn [loop]. apply writes_bind; [exact (fun _ => I)|]. intro b.
  destruct (isRunning b); [|exact I].
  apply writes_bind; [apply writes_tick, HR|]. intros _. exact IH.
Qed.

Lemma tradeStep_trans_inv (P : Bot -> Prop) l : forall a,
  (forall x y, tradeStep x y -> P x -> P y) ->
  chain tradeStep (a :: l) -> P a -> Forall P (a :: l).
Proof.
  induction l as [|b l IH]; intros a HP C Pa.
  - constructor; [exact Pa | constructor].
  - destruct C as [S C]. constructor; [exact Pa|].
    apply IH; [exact HP | exact C | exact (HP _ _ S Pa)].
Qed.

(** X14.  During a run of [start()] on a new bot, from one value of the
    object to the next the counter stays or grows by one, and nothing writes
    the configuration, the wallet or the limit: every value the object takes
    has the configuration and the wallet it was built with, the limit the
    constructor computed, and a counter that is not negative. *)
Theorem run_history_steps env fuel cfg wl :
  let history :=
    visited (snd (run env (start fuel) (initial (newBot cfg wl)))) in
  hd_error history = Some (newBot cfg wl) /\
  chain tradeStep history /\
  Forall (fun b => config b = cfg /\ wallet b = wl /\
                   maxDailyTrades b = maxDailyTrades (newBot cfg wl) /\
                   0 <= tradeCount b) history.
Proof.
  assert (W : writes tradeStep (start fuel)).
  { unfold start. apply writes_bind; [exact I|]. intros _.
    apply writes_bind.
    - split; [|exact I]. intro b. repeat split. left. reflexivity.
    - intros _. apply writes_loop. intro b. repeat split. right. reflexivity. }
  destruct (writes_history tradeStep env (start fuel)
              (fun b => conj eq_refl (conj eq_refl (conj eq_refl
                                                      (or_introl eq_refl))))
              W (initial (newBot cfg wl)))
    as (l & E & C).
  cbv zeta. rewrite E. cbn [visited initial past bot app].
  split; [reflexivity|]. split; [exact C|].
  apply tradeStep_trans_inv; [| exact C | cbn; repeat split; lia].
  intros x y (Sc & Sw & Sm & St) (Pc & Pw & Pm & Pt).
  repeat split; try congruence. destruct St as [-> | ->]; lia.
Qed.


(** X15.  A limit of 0 cannot be configured: the constructor replaces a
    limit that is 0 or absent by 50, so a new bot is below its limit and its
    first [shouldTrade] goes on to look up the balance. *)
Theorem fresh_bot_not_limited env cfg wl :
  limitIsCount cfg ->
  (cfgMaxDailyTrades cfg = Some 0 \/ cfgMaxDailyTrades cfg = None ->
   maxDailyTrades (newBot cfg wl) = 50) /\
  tradeCount (newBot cfg wl) < maxDailyTrades (newBot cfg wl) /\
  exists rest,
    calls (trace (snd (run env shouldTrade (initial (newBot cfg wl))))) =
    GetBalance (publicKey wl) :: rest.
Proof.
  intro H.
  assert (L : tradeCount (newBot cfg wl) < maxDailyTrades (newBot cfg wl)).
  { unfold limitIsCount in H. unfold newBot, JS.or_num. cbn.
    destruct (cfgMaxDailyTrades cfg) as [m|]; [|lia].
    destruct (Z.eqb_spec m 0); lia. }
  split; [|split; [exact L|]].
  - intros [E | E]; unfold newBot; cbn; rewrite E; reflexivity.
  - rewrite (run_shouldTrade_below_limit env (initial (newBot cfg wl)) L).
    rewrite run_checkBalance. cbv zeta.
    set (c := GetBalance _).
    set (w1 := awaited env c (initial (newBot cfg wl))).
    assert (C1 : calls (trace w1) = [c]).
    { unfold w1. rewrite calls_awaited. reflexivity. }
    destruct (answer env _ c) as [bal|m].
    + destruct (bal <? _).
      * exists []. cbn [snd]. rewrite !calls_printed. exact C1.
      * set (w2 := emit (Printed (LogBalance bal)) w1).
        destruct (run_extends_calls env
                    (getSwapQuote (fromToken (config (bot w2)))
                       (toToken (config (bot w2))) (amount (config (bot w2))))
                    w2) as [rest E].
        subst w2.
        rewrite calls_printed, C1 in E.
        destruct (run env (getSwapQuote _ _ _) _) as [[[q|]|m] w2];
          cbn [snd] in *; exists rest; rewrite ?calls_printed; exact E.
    + destruct (0 <? _).
      * exists []. cbn [snd]. rewrite !calls_printed. exact C1.
      * set (w2 := emit (Printed (ErrCheckingBalance m)) w1).
        destruct (run_extends_calls env
                    (getSwapQuote (fromToken (config (bot w2)))
                       (toToken (config (bot w2))) (amount (config (bot w2))))
                    w2) as [rest E].
        subst w2.
        rewrite calls_printed, C1 in E.
        destruct (run env (getSwapQuote _ _ _) _) as [[[q|]|m'] w2];
          cbn [snd] in *; exists rest; rewrite ?calls_printed; exact E.
Qed.

Lemma fresh_bot_not_limited_witness :
  limitIsCount botConfig /\
  tradeCount sampleBot < maxDailyTrades sampleBot.
Proof.
  split; [cbn; lia|].
  destruct (fresh_bot_not_limited workingEnv botConfig sampleWallet)
    as (_ & L & _); [cbn; lia|].
  exact L.
Defined.


(** ** Reading the key *)

Lemma every_app f s t :
  Str.every f (s ++ t) = Str.every f s && Str.every f t.
Proof.
  induction s as [|a s IH]; cbn; [reflexivity|].
  rewrite IH. apply andb_assoc.
Qed.

Lemma every_impl (f g : ascii -> bool) s :
  (forall c, f c = true -> g c = true) ->
  Str.every f s = true -> Str.every g s = true.
Proof.
  intro H. induction s as [|a s IH]; cbn; [reflexivity|].
  intro E. apply andb_true_iff in E. destruct E as [Ea Es].
  rewrite (H a Ea), (IH Es). reflexivity.
Qed.

Lemma every_excludes f c s :
  f c = false -> Str.every f s = true -> Str.includes c s = false.
Proof.
  intro Hc. induction s as [|a s IH]; cbn; [reflexivity|].
  intro E. apply andb_true_iff in E. destruct E as [Ea Es].
  rewrite (IH Es), orb_false_r.
  destruct (Ascii.eqb_spec a c) as [-> | _]; [congruence | reflexivity].
Qed.

Lemma digit_not_space c : isDecimalDigit c = true -> notSpace c = true.
Proof.
  destruct c as [[|] [|] [|] [|] [|] [|] [|] [|]]; vm_compute;
    intro H; first [reflexivity | discriminate H].
Qed.

Lemma every_uint d :
  Str.every isDecimalDigit (NilEmpty.string_of_uint d) = true.
Proof. induction d; cbn [NilEmpty.string_of_uint Str.every]; auto. Qed.

Lemma decimal_toString n :
  0 <= n -> Str.every isDecimalDigit (JS.toString n) = true.
Proof.
  destruct n as [|p|p]; intro H; [reflexivity | | lia].
  unfold JS.toString. cbn [Z.to_int NilZero.string_of_int].
  rewrite (nilzero_uint _ (Unsigned.to_uint_nonnil p)). apply every_uint.
Qed.

Lemma skip_spaces_all s t :
  Str.every JS.is_space s = true ->
  JS.skip_spaces (s ++ t) = JS.skip_spaces t.
Proof.
  induction s as [|a s IH]; cbn; [reflexivity|].
  intro E. apply andb_true_iff in E. destruct E as [Ea Es].
  rewrite Ea. apply IH, Es.
Qed.

Lemma skip_spaces_none s :
  Str.every notSpace s = true -> JS.skip_spaces s = s.
Proof.
  destruct s as [|a s]; cbn; [reflexivity|].
  intro E. apply andb_true_iff in E. destruct E as [Ea _].
  unfold notSpace in Ea. apply negb_true_iff in Ea. rewrite Ea. reflexivity.
Qed.

Lemma trimEnd_spaces s : Str.every JS.is_space s = true -> Str.trimEnd s = "".
Proof.
  induction s as [|a s IH]; cbn; [reflexivity|].
  intro E. apply andb_true_iff in E. destruct E as [Ea Es].
  rewrite (IH Es), Ea. reflexivity.
Qed.

Lemma trimEnd_app s t :
  Str.every notSpace s = true -> Str.every JS.is_space t = true ->
  Str.trimEnd (s ++ t) = s.
Proof.
  intros Hs Ht. induction s as [|a s IH]; cbn; [apply trimEnd_spaces, Ht|].
  cbn in Hs. apply andb_true_iff in Hs. destruct Hs as [Ha Hs].
  rewrite (IH Hs). unfold notSpace in Ha. apply negb_true_iff in Ha.
  destruct s; [rewrite Ha|]; reflexivity.
Qed.

Lemma skip_spaces_only s :
  Str.every JS.is_space s = true -> JS.skip_spaces s = "".
Proof.
  induction s as [|a s IH]; cbn; [reflexivity|].
  intro E. apply andb_true_iff in E. destruct E as [Ea Es].
  rewrite Ea. apply IH, Es.
Qed.

(** [trim] removes the white space around a text that has none inside. *)
Lemma trim_padded lead body trail :
  Str.every JS.is_space lead = true ->
  Str.every notSpace body = true ->
  Str.every JS.is_space trail = true ->
  Str.trim (lead ++ body ++ trail) = body.
Proof.
  intros Hl Hb Ht. unfold Str.trim. rewrite (skip_spaces_all _ _ Hl).
  destruct body as [|a body].
  - cbn [append]. rewrite (skip_spaces_only _ Ht). reflexivity.
  - pose proof Hb as Hb'. cbn in Hb'. apply andb_true_iff in Hb'.
    destruct Hb' as [Ha _]. unfold notSpace in Ha.
    apply negb_true_iff in Ha.
    cbn [append JS.skip_spaces]. rewrite Ha.
    exact (trimEnd_app (String a body) trail Hb Ht).
Qed.

Lemma append_empty s : (s ++ "")%string = s.
Proof.
  induction s as [|a s IH]; cbn; [reflexivity | rewrite IH; reflexivity].
Qed.

Lemma trim_decimal n : 0 <= n -> Str.trim (JS.toString n) = JS.toString n.
Proof.
  intro H.
  pose proof (trim_padded "" (JS.toString n) "") as T. cbn [append] in T.
  rewrite append_empty in T. apply T; [reflexivity | | reflexivity].
  apply (every_impl isDecimalDigit); [apply digit_not_space|].
  apply decimal_toString, H.
Qed.

Lemma split_piece c p :
  Str.includes c p = false -> Str.split c p = [p].
Proof.
  induction p as [|a p IH]; cbn; [reflexivity|].
  intro E. apply orb_false_iff in E. destruct E as [Ea Ep].
  rewrite Ea, (IH Ep). reflexivity.
Qed.

Lemma split_first c p r :
  Str.includes c p = false ->
  Str.split c (p ++ String c r) = p :: Str.split c r.
Proof.
  induction p as [|a p IH]; cbn.
  - intros _. rewrite Ascii.eqb_refl. reflexivity.
  - intro E. apply orb_false_iff in E. destruct E as [Ea Ep].
    rewrite Ea, (IH Ep). reflexivity.
Qed.

Lemma concat_comma p p' l :
  String.concat "," (p :: p' :: l) =
  (p ++ String "," (String.concat "," (p' :: l)))%string.
Proof. reflexivity. Qed.

Lemma split_concat l :
  l <> [] ->
  Forall (fun p => Str.includes "," p = false) l ->
  Str.split "," (String.concat "," l) = l.
Proof.
  induction l as [|p l IH]; intros Hne Hl; [contradiction|].
  inversion Hl as [|? ? Hp Hl']; subst.
  destruct l as [|p' l].
  - apply split_piece, Hp.
  - rewrite concat_comma, (split_first _ _ _ Hp), IH;
      [reflexivity | discriminate | exact Hl'].
Qed.

Lemma includes_app_sep c p r : Str.includes c (p ++ String c r) = true.
Proof.
  induction p as [|a p IH]; cbn.
  - rewrite Ascii.eqb_refl. reflexivity.
  - rewrite IH. apply orb_true_r.
Qed.

Lemma every_concat f l :
  f ","%char = true ->
  Forall (fun p => Str.every f p = true) l ->
  Str.every f (String.concat "," l) = true.
Proof.
  intros Hc Hl. induction Hl as [|p l Hp Hl IH]; [reflexivity|].
  destruct l as [|p' l]; [exact Hp|].
  rewrite concat_comma, every_app, Hp. cbn [andb Str.every].
  rewrite Hc, IH. reflexivity.
Qed.

Lemma split_length c s : List.length (Str.split c s) = S (Str.count c s).
Proof.
  induction s as [|a s IH]; cbn [Str.split Str.count]; [reflexivity|].
  destruct (Ascii.eqb a c); cbn [List.length].
  - rewrite IH. reflexivity.
  - destruct (Str.split c s) as [|piece pieces]; cbn in *; lia.
Qed.

Lemma toUint8_range v : 0 <= toUint8 v < 256.
Proof.
  destruct v as [z|]; cbn [toUint8]; [apply Z.mod_pos_bound|]; lia.
Qed.

(** X16.  A key written as two or more bytes in decimal, separated by
    commas, with white space around it or not, is read back as these very
    bytes: [loadWallet] hands them to [Keypair.fromSecretKey] and returns its
    key pair, or exits with code 1 when the library refuses them. *)
Theorem loadWallet_reads_comma_list
    jsonBytes base64Bytes fromSecretKey bytes lead trail :
  (2 <= List.length bytes)%nat ->
  Forall (fun b => 0 <= b < 256) bytes ->
  Str.every JS.is_space lead = true ->
  Str.every JS.is_space trail = true ->
  loadWallet jsonBytes base64Bytes fromSecretKey
    (Resolved (lead ++ commaList bytes ++ trail)%string) =
  match fromSecretKey bytes with
  | Resolved w => Loaded w
  | Rejected m => Exited 1 m
  end.
Proof.
  intros Hlen Hb Hl Ht.
  assert (Hd : Forall (fun p => Str.every isDecimalDigit p = true)
                 (map JS.toString bytes)).
  { apply Forall_map. eapply Forall_impl; [|exact Hb].
    intros b Hr. apply decimal_toString. exact (proj1 Hr). }
  assert (Hk : Str.every (fun c => isDecimalDigit c || Ascii.eqb c ",")
                 (commaList bytes) = true).
  { apply every_concat; [reflexivity|].
    eapply Forall_impl; [|exact Hd]. intros p Hp.
    apply (every_impl isDecimalDigit); [|exact Hp].
    intros c Hc. rewrite Hc. reflexivity. }
  assert (Hn : Str.every notSpace (commaList bytes) = true).
  { eapply every_impl; [|exact Hk]. intros c Hc.
    apply orb_true_iff in Hc. destruct Hc as [Hc | Hc].
    - apply digit_not_space, Hc.
    - apply Ascii.eqb_eq in Hc. subst c. reflexivity. }
  unfold loadWallet. rewrite (trim_padded _ _ _ Hl Hn Ht).
  unfold secretKeyBytes.
  rewrite (every_excludes _ "["%char _ eq_refl Hk). cbn [andb].
  assert (Hc : Str.includes "," (commaList bytes) = true).
  { destruct bytes as [|b1 [|b2 rest]]; cbn in Hlen; try lia.
    unfold commaList. cbn [map]. rewrite concat_comma.
    apply includes_app_sep. }
  rewrite Hc. unfold commaList. rewrite split_concat.
  - rewrite map_map.
    replace (map (fun x => toUint8 (JS.parseInt (Str.trim (JS.toString x))))
               bytes) with bytes; [reflexivity|].
    rewrite <- (map_id bytes) at 1. apply map_ext_in.
    intros b Hin. rewrite Forall_forall in Hb. specialize (Hb b Hin).
    rewrite trim_decimal by exact (proj1 Hb).
    rewrite parseInt_toString. cbn [toUint8].
    symmetry. apply Z.mod_small. exact Hb.
  - destruct bytes; [cbn in Hlen; lia | discriminate].
  - eapply Forall_impl; [|exact Hd]. intros p Hp.
    exact (every_excludes isDecimalDigit ","%char p eq_refl Hp).
Qed.

Lemma loadWallet_reads_comma_list_witness :
  loadWallet noJson noBase64 sampleFromSecretKey
    (Resolved (commaList sampleKey ++ newline)%string)
  = Loaded sampleWallet.
Proof.
  apply (loadWallet_reads_comma_list noJson noBase64 sampleFromSecretKey
           sampleKey "" newline).
  - vm_compute. repeat constructor.
  - apply Forall_forall. intros b Hb. apply repeat_spec in Hb. lia.
  - reflexivity.
  - reflexivity.
Defined.


(** X17.  A text with a comma and without the two brackets is never
    refused by the reading itself: whatever stands between the commas, the
    bytes are as many as the commas plus one and each is between 0 and 255
    (a piece that is no number counts as 0, a number out of range is taken
    modulo 256); refusing a bad key is left to the library. *)
Theorem comma_text_never_rejected jsonBytes base64Bytes text :
  Str.includes "," text = true ->
  Str.includes "[" text && Str.includes "]" text = false ->
  exists bytes,
    secretKeyBytes jsonBytes base64Bytes text = Resolved bytes /\
    List.length bytes = S (Str.count "," text) /\
    Forall (fun b => 0 <= b < 256) bytes.
Proof.
  intros Hc Hj. unfold secretKeyBytes. rewrite Hj, Hc.
  eexists. split; [reflexivity|]. split.
  - rewrite length_map. apply split_length.
  - apply Forall_map, Forall_forall. intros p _. apply toUint8_range.
Qed.

Lemma comma_text_never_rejected_witness :
  secretKeyBytes noJson noBase64 "1,x,300," = Resolved [1; 0; 44; 0].
Proof.
  destruct (comma_text_never_rejected noJson noBase64 "1,x,300,")
    as (bytes & E & _); [reflexivity | reflexivity |].
  rewrite E. vm_compute in E. exact (eq_sym E).
Defined.
